(** * EOM-Scraper: the incremental-sync state store and orchestrator

    A shallow embedding of [storage/state_manager.py], of the fetch path of
    [core/api_client.py] and of [EOMScraper.run] and its helpers in
    [main.py], with the properties of the sync state machine proved about
    it.

    Conventions.
    - A timezone-aware [datetime] is a [Z]: microseconds since the epoch.
    - Python's [int] is [Z]; a [Set[int]] is a [gset Z].
    - [datetime.isoformat] and [datetime.fromisoformat] are library
      functions: they are taken through the interface [IsoCodec].
    - External collaborators (SMTP, HTTP, the disk, the wall clock) answer
      through an oracle [Env]; what the program did to them is recorded in
      a trace of [event]s.
    - The records are typed as the source annotates them. Where Python
      would build an object that breaks the annotation (a state decoded
      from a document with a member of another type), the model answers
      [None] and states nothing.
    - One process is one [EOMScraper()] followed by one [run()]; nothing
      but the state file passes from a process to the next. *)

From Stdlib Require Import ZArith String Ascii List Lia.
From Stdlib Require Import DecimalString DecimalZ.
From stdpp Require Import base option list sets gmap strings sorting.

Local Open Scope string_scope.
Local Open Scope list_scope.
Local Open Scope Z_scope.

Set Warnings "-clear-no-such-hyp".

(** ** Timestamps *)

Abbreviation datetime := Z.

(** [timedelta(hours=1)], in microseconds. *)
Definition one_hour : Z := 3600000000.

(** [s.replace('Z', '+00:00')]. *)
Fixpoint replace_Z (s : string) : string :=
  match s with
  | EmptyString => EmptyString
  | String c r =>
      if Ascii.eqb c "Z"%char then "+00:00" +:+ replace_Z r
      else String c (replace_Z r)
  end.

(** The character [Z] does not occur in [s]. *)
Fixpoint no_Z (s : string) : bool :=
  match s with
  | EmptyString => true
  | String c r => negb (Ascii.eqb c "Z"%char) && no_Z r
  end.

(** The two [datetime] library functions the state store uses, with what
    the code relies on: a rendered timestamp is a non-empty string, uses
    a numeric offset (no [Z] suffix), and parses back to itself.
    [fromisoformat s = None] stands for [ValueError]. *)
Class IsoCodec := {
  isoformat : datetime → string;
  fromisoformat : string → option datetime;
  isoformat_nonempty : ∀ t, isoformat t ≠ "";
  isoformat_no_Z : ∀ t, no_Z (isoformat t) = true;
  fromisoformat_isoformat : ∀ t, fromisoformat (isoformat t) = Some t;
}.

(** ** Persisted sync state ([ScraperState]) *)

Record ScraperState := mkState {
  last_check_timestamp : string;
  processed_post_ids : gset Z;
  total_posts_processed : Z;
  last_successful_run : string;
  errors_count : Z;
}.

(** ** JSON documents, as [json.load] returns them *)

#[warnings="-register-all"]
Inductive json :=
| JNull
| JBool (b : bool)
| JInt (z : Z)
| JStr (s : string)
| JArr (l : list json)
| JObj (fields : list (string * json)).

(** [data.get(key)] on a dict decoded from a JSON object: the first binding
    of the association list. *)
Fixpoint dict_get (key : string) (fields : list (string * json)) : option json :=
  match fields with
  | [] => None
  | (k, v) :: rest => if String.eqb k key then Some v else dict_get key rest
  end.

(** [ScraperState.to_dict]. [list(set)] enumerates the set in an order the
    language leaves open; [elements] fixes one. *)
Definition to_dict (st : ScraperState) : json :=
  JObj [ ("last_check_timestamp", JStr (last_check_timestamp st));
         ("processed_post_ids", JArr (JInt <$> elements (processed_post_ids st)));
         ("total_posts_processed", JInt (total_posts_processed st));
         ("last_successful_run", JStr (last_successful_run st));
         ("errors_count", JInt (errors_count st)) ].

(** Exceptions the modelled code can see. *)
Inductive exn :=
| AttributeError
| TypeError
| UnicodeDecodeError
| RequestException
| OtherException.

(** Outcome of a computation that may raise. *)
Inductive result (A : Type) :=
| Ok (a : A)
| Raise (e : exn).
Arguments Ok {A} a.
Arguments Raise {A} e.

(** [ScraperState.from_dict] stores what [data.get] returns without
    looking at its type. The record above is typed as the dataclass is
    annotated, so a document with a member of another type builds a
    Python object that is no value of [ScraperState]: for such a document
    the decoder below answers [None], and nothing is stated about what the
    program does with it. *)

(** [data.get('last_check_timestamp', '')] and its sibling string field:
    [None] for a value that is not a string. *)
Definition get_str (key : string) (fields : list (string * json)) : option string :=
  match dict_get key fields with
  | None => Some ""
  | Some (JStr s) => Some s
  | Some _ => None
  end.

(** [data.get('total_posts_processed', 0)] and its sibling integer field:
    [None] for a value that is not an integer. *)
Definition get_int (key : string) (fields : list (string * json)) : option Z :=
  match dict_get key fields with
  | None => Some 0
  | Some (JInt z) => Some z
  | Some _ => None
  end.

Fixpoint ints_of (l : list json) : option (list Z) :=
  match l with
  | [] => Some []
  | JInt z :: r => cons z <$> ints_of r
  | _ :: _ => None
  end.

(** A decoded value [set] cannot hash: a list or a dict. *)
Definition unhashable (v : json) : bool :=
  match v with
  | JArr _ | JObj _ => true
  | _ => false
  end.

(** [set(data.get('processed_post_ids', []))]. [set] raises [TypeError]
    on a value that is not iterable ([null], a number, a boolean) and on
    an array with an element it cannot hash. An array of integers gives
    the [Set[int]]; any other array, a string and an object give a set
    that is no [Set[int]]: [None]. *)
Definition get_ids (key : string) (fields : list (string * json))
    : option (result (gset Z)) :=
  match dict_get key fields with
  | None => Some (Ok ∅)
  | Some (JArr l) =>
      if existsb unhashable l then Some (Raise TypeError)
      else
        match ints_of l with
        | Some zs => Some (Ok (list_to_set zs))
        | None => None
        end
  | Some (JNull | JBool _ | JInt _) => Some (Raise TypeError)
  | Some (JStr _ | JObj _) => None
  end.

(** [ScraperState.from_dict]. On a decoded document that is not a dict,
    [data.get] raises [AttributeError]; on a dict, only the call of [set]
    can raise. *)
Definition from_dict (data : json) : option (result ScraperState) :=
  match data with
  | JObj fields =>
      match get_ids "processed_post_ids" fields with
      | Some (Raise e) => Some (Raise e)
      | Some (Ok ids) =>
          match get_str "last_check_timestamp" fields,
                get_int "total_posts_processed" fields,
                get_str "last_successful_run" fields,
                get_int "errors_count" fields with
          | Some ts, Some total, Some lsr, Some errs =>
              Some (Ok (mkState ts ids total lsr errs))
          | _, _, _, _ => None
          end
      | None => None
      end
  | _ => Some (Raise AttributeError)
  end.

(** ** The state store ([StateManager]) *)

(** [self.state : Optional[ScraperState]] is [None] until [load_state]. *)
Record StateManager := mkManager {
  state : option ScraperState;
}.

(** What [open] and [json.load] find at [state_file]. *)
Inductive file_content :=
| NotUtf8                (* bytes that do not decode: [UnicodeDecodeError] *)
| NotJson                (* text that is not JSON: [json.JSONDecodeError] *)
| Json (data : json).    (* a JSON document *)

Section StateStore.
Context `{IsoCodec}.

(** [_create_initial_state], at clock reading [now]. *)
Definition _create_initial_state (now : datetime) : ScraperState :=
  {| last_check_timestamp := isoformat now;
     processed_post_ids := ∅;
     total_posts_processed := 0;
     last_successful_run := "";
     errors_count := 0 |}.

(** [load_state]: [file = None] when the state file does not exist. The
    handler names [json.JSONDecodeError] and [KeyError] only; any other
    exception leaves the method. The answer is [None] for a document
    outside the typed model (see [from_dict]). *)
Definition load_state (file : option file_content) (now : datetime)
    (sm : StateManager) : option (result ScraperState * StateManager) :=
  match file with
  | Some NotUtf8 => Some (Raise UnicodeDecodeError, sm)
  | Some NotJson =>
      let st := _create_initial_state now in Some (Ok st, mkManager (Some st))
  | Some (Json data) =>
      match from_dict data with
      | Some (Ok st) => Some (Ok st, mkManager (Some st))
      | Some (Raise e) => Some (Raise e, sm)
      | None => None
      end
  | None =>
      let st := _create_initial_state now in Some (Ok st, mkManager (Some st))
  end.

(** [update_last_check]. *)
Definition update_last_check (timestamp : datetime) (sm : StateManager) : StateManager :=
  match state sm with
  | Some st =>
      mkManager (Some {| last_check_timestamp := isoformat timestamp;
                         processed_post_ids := processed_post_ids st;
                         total_posts_processed := total_posts_processed st;
                         last_successful_run := last_successful_run st;
                         errors_count := errors_count st |})
  | None => sm
  end.

(** [mark_post_processed]. *)
Definition mark_post_processed (post_id : Z) (sm : StateManager) : StateManager :=
  match state sm with
  | Some st =>
      if decide (post_id ∉ processed_post_ids st) then
        mkManager (Some {| last_check_timestamp := last_check_timestamp st;
                           processed_post_ids := {[post_id]} ∪ processed_post_ids st;
                           total_posts_processed := total_posts_processed st + 1;
                           last_successful_run := last_successful_run st;
                           errors_count := errors_count st |})
      else sm
  | None => sm
  end.

(** [is_post_processed]. *)
Definition is_post_processed (post_id : Z) (sm : StateManager) : bool :=
  match state sm with
  | Some st => bool_decide (post_id ∈ processed_post_ids st)
  | None => false
  end.

(** [mark_successful_run], at clock reading [now]. *)
Definition mark_successful_run (now : datetime) (sm : StateManager) : StateManager :=
  match state sm with
  | Some st =>
      mkManager (Some {| last_check_timestamp := last_check_timestamp st;
                         processed_post_ids := processed_post_ids st;
                         total_posts_processed := total_posts_processed st;
                         last_successful_run := isoformat now;
                         errors_count := errors_count st |})
  | None => sm
  end.

(** [increment_error_count]. *)
Definition increment_error_count (sm : StateManager) : StateManager :=
  match state sm with
  | Some st =>
      mkManager (Some {| last_check_timestamp := last_check_timestamp st;
                         processed_post_ids := processed_post_ids st;
                         total_posts_processed := total_posts_processed st;
                         last_successful_run := last_successful_run st;
                         errors_count := errors_count st + 1 |})
  | None => sm
  end.

(** [get_last_check_datetime], at clock reading [now]. *)
Definition get_last_check_datetime (now : datetime) (sm : StateManager) : datetime :=
  match state sm with
  | Some st =>
      if negb (String.eqb (last_check_timestamp st) "") then
        match fromisoformat (replace_Z (last_check_timestamp st)) with
        | Some t => t
        | None => now - one_hour
        end
      else now - one_hour
  | None => now - one_hour
  end.

(** [sorted(ids, reverse=True)]. *)
Definition sorted_desc (ids : gset Z) : list Z :=
  merge_sort (flip Z.le) (elements ids).

(** [l[:k]] for a Python slice bound [k]: a negative bound counts from
    the end. *)
Definition slice_to (k : Z) (l : list Z) : list Z :=
  if decide (0 ≤ k) then take (Z.to_nat k) l
  else take (Z.to_nat (Z.of_nat (length l) + k)) l.

(** [cleanup_old_processed_ids]. The test [len(ids) > keep_recent * 1.5]
    compares an integer with a float; on integers it is
    [2 * len(ids) > 3 * keep_recent]. *)
Definition cleanup_old_processed_ids (keep_recent : Z) (sm : StateManager) : StateManager :=
  match state sm with
  | Some st =>
      if decide (3 * keep_recent < 2 * Z.of_nat (size (processed_post_ids st))) then
        let sorted_ids := sorted_desc (processed_post_ids st) in
        mkManager (Some {| last_check_timestamp := last_check_timestamp st;
                           processed_post_ids := list_to_set (slice_to keep_recent sorted_ids);
                           total_posts_processed := total_posts_processed st;
                           last_successful_run := last_successful_run st;
                           errors_count := errors_count st |})
      else sm
  | None => sm
  end.

End StateStore.

(** ** Configuration ([config/settings.py]) *)

Record EOMConfig := mkEOMConfig {
  username : option string;
  password : option string;
}.

(** [request_delay] is a number of seconds in the source; here it is in
    microseconds, the unit of the clock. *)
Record AppConfig := mkAppConfig {
  dry_run : bool;
  process_open_content : bool;
  process_premium_content : bool;
  request_delay : N;
}.

(** Truth value of an [Optional[str]]: [None] and [''] are false. *)
Definition truthy_str (o : option string) : bool :=
  match o with
  | Some s => negb (String.eqb s "")
  | None => false
  end.

(** ** Feed items *)

(** The [id] member of a post object of the feed. *)
Inductive id_field :=
| IdAbsent
| IdNull
| IdInt (z : Z).

(** A raw post: the members the orchestrator's control flow reads. *)
Record Post := mkPost {
  p_id : id_field;
  p_title : string;
  p_content : string;
}.

Inductive access_type := Open | Premium.

Record Metadata := mkMetadata {
  m_id : option Z;
  m_title : string;
  m_content_raw : string;
  m_access_type : access_type;
}.

(** An article of the delivery loop: the metadata [_get_new_articles]
    appended to its result, with the integer that its ['id'] member holds.
    [_get_new_articles] appends the metadata of a post only after the
    truth test of [post.get('id')], the value [extract_post_metadata]
    stores under ['id']: the loop of [_process_articles] is modelled on
    such articles, and not on metadata whose id is [None]. *)
Record Article := mkArticle {
  a_id : Z;
  a_metadata : Metadata;
}.

(** [post.get('id')]: [None] for an absent key and for [null]. *)
Definition post_get_id (p : Post) : option Z :=
  match p_id p with
  | IdInt z => Some z
  | IdAbsent | IdNull => None
  end.

(** Truth value of [post.get('id')]: [None] and [0] are false. *)
Definition truthy_id (o : option Z) : bool :=
  match o with
  | Some z => negb (z =? 0)
  | None => false
  end.

(** [needle in hay] on strings. *)
Fixpoint contains (needle hay : string) : bool :=
  String.prefix needle hay ||
  match hay with
  | EmptyString => false
  | String _ r => contains needle r
  end.

(** [classify_post_access]. *)
Definition classify_post_access (p : Post) : access_type :=
  if contains "mepr-unauthorized-excerpt" (p_content p) then Premium else Open.

(** [extract_post_metadata]. *)
Definition extract_post_metadata (p : Post) : Metadata :=
  {| m_id := post_get_id p;
     m_title := p_title p;
     m_content_raw := p_content p;
     m_access_type := classify_post_access p |}.

(** ** The environment of one run *)

(** The blocking calls of a run; each takes the time the oracle says. *)
Inductive call :=
| SmtpTest
| HttpGet
| Item (i : nat)
| DiskWrite.

(** What [session.get] and [response.json()] do for the one request of a
    run. [RequestException] is the transport failure [requests] reports;
    any other exception is [OtherException]. *)
Inductive http_outcome :=
| GetRaises (e : exn)
| GetResponse (status : Z) (body : result (list Post)).

(** What a write of [save_state] that fails leaves at [state_file].
    [open(state_file, 'w')] truncates the file before [json.dump] writes
    to it. *)
Inductive write_failure :=
| FileUntouched   (* [mkdir] or [open] failed: the file is as it was *)
| FileTornText    (* the failure came after the open: the file holds a
                     proper prefix of the document, which is not JSON *)
| FileTornBytes   (* the same, the prefix ending inside a multi-byte
                     character: the bytes do not decode *)
| FileComplete.   (* the failure came when the file was closed, the
                     document written in full *)

Record Env := mkEnv {
  smtp_connects : bool;          (* the SMTP login of [test_connection] succeeds *)
  http : http_outcome;
  transform_ok : nat → bool;     (* [process_article] and [create_email_content]
                                    return for the i-th article (from 1) *)
  smtp_accepts : nat → bool;     (* [_send_smtp_email] succeeds for the i-th article *)
  disk_ok : bool;                (* the write of [save_state] succeeds *)
  disk_failure : write_failure;  (* what the write leaves when it does not *)
  latency : call → N;
}.

(** What a run did to the outside world. *)
Inductive event :=
| EvFetch (issued_at since : datetime)   (* GET /posts?after=since, issued at a clock reading *)
| EvDeliver (post_id : Z) (ok : bool)    (* [send_article_email] was called and returned [ok] *)
| EvSave (doc : json) (written : bool).  (* [save_state] wrote [doc], or failed to *)

(** ** The scraper object and the world it runs in *)

Record Machine := mkMachine {
  app_config : AppConfig;
  eom_config : EOMConfig;
  state_manager : StateManager;
  clock : datetime;
  trace : list event;
}.

Definition set_manager (sm : StateManager) (m : Machine) : Machine :=
  mkMachine (app_config m) (eom_config m) sm (clock m) (trace m).

Definition set_premium (b : bool) (m : Machine) : Machine :=
  mkMachine
    (mkAppConfig (dry_run (app_config m)) (process_open_content (app_config m)) b
                 (request_delay (app_config m)))
    (eom_config m) (state_manager m) (clock m) (trace m).

(** ** A state-and-exception monad over [Machine] *)

Definition M (A : Type) : Type := Machine → result A * Machine.

Definition ret {A} (a : A) : M A := λ m, (Ok a, m).

Definition bind {A B} (c : M A) (k : A → M B) : M B :=
  λ m, match c m with
       | (Ok a, m') => k a m'
       | (Raise e, m') => (Raise e, m')
       end.

Definition raise {A} (e : exn) : M A := λ m, (Raise e, m).

(** [try: body except Exception as e: handler]. The handler runs on the
    machine as the body left it. *)
Definition try_catch {A} (body : M A) (handler : exn → M A) : M A :=
  λ m, match body m with
       | (Ok a, m') => (Ok a, m')
       | (Raise e, m') => handler e m'
       end.

Declare Scope run_scope.
Delimit Scope run_scope with run.
Notation "'let!' x ':=' c 'in' k" := (bind c (λ x, k))
  (at level 10, x name, c at level 100, k at level 200) : run_scope.
Notation "c ';;;' k" := (bind c (λ _, k))
  (at level 100, k at level 200, right associativity) : run_scope.

Definition get_machine : M Machine := λ m, (Ok m, m).

(** A mutation of the state store. *)
Definition modify_manager (f : StateManager → StateManager) : M unit :=
  λ m, (Ok tt, set_manager (f (state_manager m)) m).

(** Time passes: [time.sleep], or the duration of a blocking call. *)
Definition elapse (d : N) : M unit :=
  λ m, (Ok tt, mkMachine (app_config m) (eom_config m) (state_manager m)
                         (clock m + Z.of_N d) (trace m)).

Definition emit (e : event) : M unit :=
  λ m, (Ok tt, mkMachine (app_config m) (eom_config m) (state_manager m)
                         (clock m) (trace m ++ [e])).

(** [time.sleep(2)], in microseconds. *)
Definition two_seconds : N := 2000000.

Section Orchestrator.
Context `{IsoCodec}.
Variable env : Env.

Local Open Scope run_scope.

(** *** [EmailSender] *)

(** [test_connection]: simulated in a dry run; otherwise every exception
    of the SMTP dialogue is caught and reported as [False]. *)
Definition test_connection : M bool :=
  let! m := get_machine in
  if dry_run (app_config m) then ret true
  else elapse (latency env SmtpTest) ;;; ret (smtp_connects env).

(** [send_article_email] for the [i]-th article: never raises. *)
Definition send_article_email (i : nat) : M bool :=
  let! m := get_machine in
  if dry_run (app_config m) then ret true
  else ret (smtp_accepts env i).

(** *** [EOMAPIClient] *)

(** [authenticate]: not implemented upstream; both paths answer [False]. *)
Definition authenticate (cfg : EOMConfig) : bool :=
  if negb (truthy_str (username cfg)) || negb (truthy_str (password cfg))
  then false
  else false.

(** [_make_request('/posts', params)]: [None] on a caught
    [RequestException] and on a status other than 200. The rate-limit
    sleep follows a response, not a failed [session.get]. *)
Definition _make_request (since : datetime) : M (option (list Post)) :=
  let! m := get_machine in
  emit (EvFetch (clock m) since) ;;;
  elapse (latency env HttpGet) ;;;
  try_catch
    (match http env with
     | GetRaises e => raise e
     | GetResponse status body =>
         elapse (request_delay (app_config m)) ;;;
         if status =? 200 then
           match body with
           | Ok posts => ret (Some posts)
           | Raise e => raise e
           end
         else ret None
     end)
    (λ e, match e with
          | RequestException => ret None
          | _ => raise e
          end).

(** [get_posts_since]. *)
Definition get_posts_since (since_datetime : datetime) : M (list Post) :=
  let! posts := _make_request since_datetime in
  match posts with
  | None => ret []
  | Some posts => ret posts
  end.

(** *** [EOMScraper] *)

(** [_should_process_article]. *)
Definition _should_process_article (cfg : AppConfig) (metadata : Metadata) : bool :=
  match m_access_type metadata with
  | Open => process_open_content cfg
  | Premium => process_premium_content cfg
  end.

(** The filtering loop of [_get_new_articles]. After the truth test the
    id is an integer; the [None] branch of the match is never taken. *)
Fixpoint filter_new (cfg : AppConfig) (sm : StateManager) (raw_posts : list Post)
    : list Article :=
  match raw_posts with
  | [] => []
  | post :: rest =>
      let post_id := post_get_id post in
      if negb (truthy_id post_id) then filter_new cfg sm rest
      else
        match post_id with
        | Some id =>
            if is_post_processed id sm then filter_new cfg sm rest
            else
              let metadata := extract_post_metadata post in
              if negb (_should_process_article cfg metadata)
              then filter_new cfg sm rest
              else mkArticle id metadata :: filter_new cfg sm rest
        | None => filter_new cfg sm rest
        end
  end.

(** [_get_new_articles]. *)
Definition _get_new_articles : M (list Article) :=
  let! m := get_machine in
  let last_check := get_last_check_datetime (clock m) (state_manager m) in
  let! raw_posts := get_posts_since last_check in
  match raw_posts with
  | [] => ret []
  | _ :: _ =>
      let! m' := get_machine in
      ret (filter_new (app_config m') (state_manager m') raw_posts)
  end.

(** The body of the [try] of one iteration of [_process_articles], for
    the [i]-th of [n] articles; it answers whether the article counts as
    processed. *)
Definition process_one (n i : nat) (article_metadata : Article) : M bool :=
  let post_id := a_id article_metadata in
  elapse (latency env (Item i)) ;;;
  (if transform_ok env i then ret tt else raise OtherException) ;;;
  let! sent := send_article_email i in
  emit (EvDeliver post_id sent) ;;;
  (if sent then modify_manager (mark_post_processed post_id) else ret tt) ;;;
  (if (i <? n)%nat then elapse two_seconds else ret tt) ;;;
  ret sent.

(** The loop of [_process_articles]: an exception in one iteration is
    logged and the loop goes on. *)
Fixpoint process_loop (n i : nat) (articles : list Article) (processed_count : Z) : M Z :=
  match articles with
  | [] => ret processed_count
  | a :: rest =>
      let! counted := try_catch (process_one n i a) (λ _, ret false) in
      process_loop n (S i) rest
        (if counted : bool then processed_count + 1 else processed_count)
  end.

(** [_process_articles]. *)
Definition _process_articles (articles : list Article) : M Z :=
  process_loop (length articles) 1 articles 0.

(** [StateManager.save_state]: never raises. *)
Definition save_state : M bool :=
  let! m := get_machine in
  match state (state_manager m) with
  | None => ret false
  | Some st =>
      elapse (latency env DiskWrite) ;;;
      emit (EvSave (to_dict st) (disk_ok env)) ;;;
      ret (disk_ok env)
  end.

(** The clock is read by [datetime.now(timezone.utc)]. *)
Definition now : M datetime :=
  let! m := get_machine in ret (clock m).

(** The body of the [try] of [run]. *)
Definition run_body : M bool :=
  let! connected := test_connection in
  if negb connected then ret false
  else
    let! m := get_machine in
    (if process_premium_content (app_config m) then
       if negb (authenticate (eom_config m)) then (λ m, (Ok tt, set_premium false m))
       else ret tt
     else ret tt) ;;;
    let! new_articles := _get_new_articles in
    match new_articles with
    | [] =>
        let! t := now in
        modify_manager (mark_successful_run t) ;;;
        save_state ;;;
        ret true
    | _ :: _ =>
        let! processed_count := _process_articles new_articles in
        (if 0 <? processed_count then
           let! t := now in
           modify_manager (update_last_check t) ;;;
           let! t' := now in
           modify_manager (mark_successful_run t') ;;;
           modify_manager (cleanup_old_processed_ids 1000)
         else ret tt) ;;;
        save_state ;;;
        ret true
    end.

(** [EOMScraper.run]. *)
Definition run : M bool :=
  try_catch run_body
    (λ _, modify_manager increment_error_count ;;;
          save_state ;;;
          ret false).

End Orchestrator.

(** ** Start-up ([validate_config], [EOMScraper.__init__]) *)

Record EmailConfig := mkEmailConfig {
  smtp_server : string;
  smtp_port : Z;
  smtp_username : string;
  smtp_password : string;
  readwise_email : string;
  from_email : string;
  from_name : string;
}.

(** [validate_config]: the list of error messages, in the order of the
    checks. *)
Definition validate_config (email : EmailConfig) (eom : EOMConfig) (app : AppConfig)
    : list string :=
  (if String.eqb (readwise_email email) "" then ["READWISE_EMAIL es obligatorio"] else [])
  ++ (if String.eqb (from_email email) "" then ["FROM_EMAIL es obligatorio"] else [])
  ++ (if String.eqb (smtp_username email) "" || String.eqb (smtp_password email) ""
      then ["SMTP_USERNAME y SMTP_PASSWORD son obligatorios"] else [])
  ++ (if process_premium_content app
         && (negb (truthy_str (username eom)) || negb (truthy_str (password eom)))
      then ["EOM_USERNAME y EOM_PASSWORD son obligatorios para contenido premium"]
      else []).

(** What [EOMScraper()] can raise: [ValueError] for an invalid
    configuration, or what [load_state] raised. *)
Inductive init_exn :=
| InvalidConfig
| LoadFailed (e : exn).

(** [EOMScraper.__init__], on the configuration [load_config] returned,
    the content of the state file and the clock: the scraper object, with
    an empty trace, or the exception raised; [None] when the state file
    holds a document outside the typed model (see [from_dict]). *)
Definition EOMScraper_init `{IsoCodec} (email : EmailConfig) (eom : EOMConfig)
    (app : AppConfig) (file : option file_content) (now : datetime)
    : option (init_exn + Machine) :=
  match validate_config email eom app with
  | _ :: _ => Some (inl InvalidConfig)
  | [] =>
      match load_state file now (mkManager None) with
      | Some (Ok _, sm) => Some (inr (mkMachine app eom sm now []))
      | Some (Raise e, _) => Some (inl (LoadFailed e))
      | None => None
      end
  end.

(** ** The self-test ([get_all_recent_posts], [test_setup]) *)

(** What the network answers to one request whose decoded body is an
    [A]. *)
Inductive response (A : Type) :=
| Raises (e : exn)
| Response (status : Z) (body : result A).
Arguments Raises {A} e.
Arguments Response {A} status body.

(** The answers the self-test gets: for the API root, whether the decoded
    document is a non-empty object; for the posts, by page number and
    page size. [max_per_page] is the field of [EOMConfig] of that name. *)
Record ProbeEnv := mkProbeEnv {
  root : response bool;
  pages : nat → Z → response (list Post);
  max_per_page : Z;
}.

(** [l[:k]] for a Python slice bound [k], on any list. *)
Definition py_slice_to {A} (k : Z) (l : list A) : list A :=
  if decide (0 ≤ k) then take (Z.to_nat k) l
  else take (Z.to_nat (Z.of_nat (length l) + k)) l.

(** [StateManager.get_stats]: [None] stands for the empty dict. *)
Definition get_stats (sm : StateManager) : option (Z * nat * string * string * Z) :=
  match state sm with
  | None => None
  | Some st =>
      Some (total_posts_processed st, size (processed_post_ids st),
            last_check_timestamp st, last_successful_run st, errors_count st)
  end.

Section SelfTest.
Variable env : Env.
Variable penv : ProbeEnv.

Local Open Scope run_scope.

(** [_make_request] for any endpoint: the request and the rate-limit
    sleep take their time; [None] on a caught [RequestException] and on a
    status other than 200. *)
Definition make_request {A} (r : response A) : M (option A) :=
  let! m := get_machine in
  elapse (latency env HttpGet) ;;;
  try_catch
    (match r with
     | Raises e => raise e
     | Response status body =>
         elapse (request_delay (app_config m)) ;;;
         if status =? 200 then
           match body with
           | Ok a => ret (Some a)
           | Raise e => raise e
           end
         else ret None
     end)
    (λ e, match e with
          | RequestException => ret None
          | _ => raise e
          end).

(** [discover_api_endpoints]. *)
Definition discover_api_endpoints : M (option bool) :=
  make_request (root penv).

(** The [while] loop of [get_all_recent_posts], with a bound on the
    number of iterations. [None] is returned when the bound is reached
    with the loop condition still true; the bound [get_all_recent_posts]
    gives is never reached, as is proved below. *)
Fixpoint recent_loop (fuel : nat) (limit : Z) (page : nat) (all_posts : list Post)
    : M (option (list Post)) :=
  if Z.of_nat (length all_posts) <? limit then
    match fuel with
    | O => ret None
    | S fuel' =>
        let remaining := limit - Z.of_nat (length all_posts) in
        let per_page := Z.min remaining (max_per_page penv) in
        let! posts := make_request (pages penv page per_page) in
        match posts with
        | None | Some [] => ret (Some all_posts)
        | Some (p :: ps) =>
            let all_posts' := all_posts ++ p :: ps in
            if Z.of_nat (length (p :: ps)) <? per_page then ret (Some all_posts')
            else recent_loop fuel' limit (S page) all_posts'
        end
    end
  else ret (Some all_posts).

(** [get_all_recent_posts]. *)
Definition get_all_recent_posts (limit : Z) : M (list Post) :=
  let! all_posts := recent_loop (Z.to_nat limit) limit 1 [] in
  ret (py_slice_to limit (default [] all_posts)).

(** [EOMScraper.test_setup]. The counts of open and premium posts and the
    statistics are computed for the log only. *)
Definition test_setup : M bool :=
  let! api_info := discover_api_endpoints in
  if default false api_info then
    let! recent_posts := get_all_recent_posts 5 in
    match recent_posts with
    | _ :: _ =>
        let open_count :=
          length (List.filter
                    (λ p, match classify_post_access p with Open => true | Premium => false end)
                    recent_posts) in
        let premium_count := (length recent_posts - open_count)%nat in
        let! connected := test_connection env in
        if connected then
          let! m := get_machine in
          let stats := get_stats (state_manager m) in
          ret true
        else ret false
    | [] => ret false
    end
  else ret false.

End SelfTest.

(** ** A codec to compute with

    [IsoCodec] is satisfiable: the instance below renders a timestamp as
    the letter [T] followed by its microsecond count in decimal. It stands
    in for the library's ISO-8601 codec wherever a run is evaluated on
    concrete data. *)

Definition epoch_isoformat (t : datetime) : string :=
  String "T"%char (NilEmpty.string_of_int (Z.to_int t)).

Definition epoch_fromisoformat (s : string) : option datetime :=
  match s with
  | String c r =>
      if Ascii.eqb c "T"%char then Z.of_int <$> NilEmpty.int_of_string r else None
  | EmptyString => None
  end.

#[export] Program Instance epoch_codec : IsoCodec := {|
  isoformat := epoch_isoformat;
  fromisoformat := epoch_fromisoformat;
|}.
Next Obligation. intros t. discriminate. Qed.
Next Obligation.
  intros t. simpl.
  assert (Hu : ∀ d, no_Z (NilEmpty.string_of_uint d) = true)
    by (induction d; simpl; auto).
  destruct (Z.to_int t); simpl; apply Hu.
Qed.
Next Obligation.
  intros t. unfold epoch_fromisoformat, epoch_isoformat.
  rewrite Ascii.eqb_refl, NilEmpty.isi. simpl. f_equal. apply DecimalZ.of_to.
Qed.

(** ** Vocabulary of the statements *)

(** A state with its id set and counter replaced. *)
Definition with_ids (st : ScraperState) (ids : gset Z) (total : Z) : ScraperState :=
  mkState (last_check_timestamp st) ids total (last_successful_run st) (errors_count st).

(** [kept] is the set of the [k] highest-valued members of [ids]. *)
Definition highest (k : nat) (ids kept : gset Z) : Prop :=
  kept ⊆ ids ∧ size kept = k ∧ ∀ x y, x ∈ kept → y ∈ ids → y ∉ kept → y < x.

(** The ids of the deliveries that succeeded, in order. *)
Definition delivered (evs : list event) : list Z :=
  omap (λ e, match e with EvDeliver id true => Some id | _ => None end) evs.

(** The deliveries attempted, in order, each with its outcome. *)
Definition delivered_attempts (evs : list event) : list (Z * bool) :=
  omap (λ e, match e with EvDeliver id ok => Some (id, ok) | _ => None end) evs.

(** The documents [save_state] was asked to write, in order. *)
Definition saves (evs : list event) : list json :=
  omap (λ e, match e with EvSave doc _ => Some doc | _ => None end) evs.

(** [mark_post_processed] for each id of a list, in order. *)
Definition mark_all (ids : list Z) (sm : StateManager) : StateManager :=
  foldl (λ s id, mark_post_processed id s) sm ids.

(** What [get_posts_since] hands to its caller for an answer of the
    network. *)
Definition fetched (h : http_outcome) : result (list Post) :=
  match h with
  | GetRaises RequestException => Ok []
  | GetRaises e => Raise e
  | GetResponse status body =>
      if status =? 200 then
        match body with
        | Ok posts => Ok posts
        | Raise RequestException => Ok []
        | Raise e => Raise e
        end
      else Ok []
  end.

(** The time the request takes: the call, and the rate-limit sleep when
    there is a response. *)
Definition fetch_time (cfg : AppConfig) (env : Env) : N :=
  (latency env HttpGet +
   match http env with
   | GetRaises _ => 0
   | GetResponse _ _ => request_delay cfg
   end)%N.

(** [test_connection] answers [True]. *)
Definition connected (cfg : AppConfig) (env : Env) : bool :=
  dry_run cfg || smtp_connects env.

(** The fetch reports a transport failure: the request raises
    [RequestException], or the status is not 200. *)
Definition transport_failure (h : http_outcome) : Prop :=
  h = GetRaises RequestException ∨
  ∃ status body, h = GetResponse status body ∧ status ≠ 200.

(** An event of the delivery loop over [articles]: the delivery of one
    of them whose transformation returned, with the answer of the
    channel. *)
Definition loop_event (env : Env) (cfg : AppConfig) (articles : list Article)
    (e : event) : Prop :=
  ∃ id i a,
    e = EvDeliver id (dry_run cfg || smtp_accepts env i)
    ∧ transform_ok env i = true
    ∧ a ∈ articles ∧ a_id a = id.

(** [mark_post_processed] on a loaded state. *)
Definition marked (id : Z) (st : ScraperState) : ScraperState :=
  if decide (id ∉ processed_post_ids st)
  then with_ids st ({[id]} ∪ processed_post_ids st) (total_posts_processed st + 1)
  else st.

(** The state after the commits of a pass. *)
Definition committed (ids : list Z) (st : ScraperState) : ScraperState :=
  foldl (λ s id, marked id s) st ids.

(** The configuration after the authentication step of [run]. *)
Definition adjust_premium (cfg : AppConfig) (eom : EOMConfig) : AppConfig :=
  if process_premium_content cfg then
    if negb (authenticate eom)
    then mkAppConfig (dry_run cfg) (process_open_content cfg) false (request_delay cfg)
    else cfg
  else cfg.

(** A state whose watermark and last successful run are set to [t]. *)
Definition stamped `{IsoCodec} (t : datetime) (st : ScraperState) : ScraperState :=
  mkState (isoformat t) (processed_post_ids st) (total_posts_processed st)
          (isoformat t) (errors_count st).

(** The time [test_connection] takes. *)
Definition smtp_time (cfg : AppConfig) (env : Env) : Z :=
  if dry_run cfg then 0 else Z.of_N (latency env SmtpTest).

(** The watermark as [get_last_check_datetime] reads it, when it reads
    one. *)
Definition watermark `{IsoCodec} (st : ScraperState) : option datetime :=
  if String.eqb (last_check_timestamp st) "" then None
  else fromisoformat (replace_Z (last_check_timestamp st)).

(** The environment [env] with another answer of the feed. *)
Definition set_http (h : http_outcome) (env : Env) : Env :=
  mkEnv (smtp_connects env) h (transform_ok env) (smtp_accepts env) (disk_ok env)
        (disk_failure env)
        (latency env).

(** The post [p] with another [id] member. *)
Definition with_id (i : id_field) (p : Post) : Post :=
  mkPost i (p_title p) (p_content p).

(** What [state_file] holds after [save_state] tried to write [doc] over
    [file]. *)
Definition written (env : Env) (doc : json) (file : option file_content)
    : option file_content :=
  if disk_ok env then Some (Json doc)
  else
    match disk_failure env with
    | FileUntouched => file
    | FileTornText => Some NotJson
    | FileTornBytes => Some NotUtf8
    | FileComplete => Some (Json doc)
    end.

(** The state file after the saves of a list of events. *)
Definition file_after (env : Env) (evs : list event) (file : option file_content)
    : option file_content :=
  foldl (λ f doc, written env doc f) file (saves evs).

(** One process that ran: the state [load_state] gave it, and the
    scraper object when [run] returned; its trace holds the events of that
    run. *)
Record Pass := mkPass {
  loaded : ScraperState;
  ended : Machine;
}.

(** The state a pass ended with. *)
Definition final (p : Pass) : option ScraperState := state (state_manager (ended p)).

(** A sequence of processes, as a scheduler starts [main()] without
    flags. An entry of the schedule is one process: the time that passes
    before it starts, and its environment. Each process builds a new
    [EOMScraper] on a configuration taken as valid (see
    [EOMScraper_init]), which loads the state from [state_file], and calls
    [run]; nothing but the file passes from one process to the next. A
    process whose start-up raises ends there, the file untouched. The
    answer is [None] when a start-up meets a document outside the typed
    model (see [from_dict]). *)
Fixpoint runs `{IsoCodec} (cfg : AppConfig) (eom : EOMConfig)
    (schedule : list (N * Env)) (file : option file_content) (clk : datetime)
    : option (list (result Pass)) :=
  match schedule with
  | [] => Some []
  | (gap, env) :: rest =>
      let now := clk + Z.of_N gap in
      match load_state file now (mkManager None) with
      | None => None
      | Some (Raise e, _) => cons (Raise e) <$> runs cfg eom rest file now
      | Some (Ok st, sm) =>
          let m' := snd (run env (mkMachine cfg eom sm now [])) in
          cons (Ok (mkPass st m'))
            <$> runs cfg eom rest (file_after env (trace m') file) (clock m')
      end
  end.



(** The watermarks the passes of a sequence ended with; [None] for a
    process that did not run and for a watermark that does not parse. *)
Definition watermarks_after `{IsoCodec} (passes : list (result Pass))
    : list (option datetime) :=
  (λ r, match r with
        | Ok p => final p ≫= watermark
        | Raise _ => None
        end) <$> passes.

(** The article [_get_new_articles] makes of a post whose id is an
    integer. *)
Definition article_of (p : Post) : option Article :=
  match post_get_id p with
  | Some id => Some (mkArticle id (extract_post_metadata p))
  | None => None
  end.

(** The tests a post passes to become a candidate, in the order of the
    loop of [_get_new_articles]: an id that is an integer other than 0,
    not yet processed, and a content type the configuration lets through. *)
Definition candidate (cfg : AppConfig) (sm : StateManager) (p : Post) : bool :=
  match post_get_id p with
  | Some id =>
      negb (id =? 0) && negb (is_post_processed id sm)
      && _should_process_article cfg (extract_post_metadata p)
  | None => false
  end.

(** An exception leaves [get_posts_since]: one that is not a
    [RequestException], raised by the request or by the decoding of a 200
    response. *)
Definition escapes (h : http_outcome) : bool :=
  match h with
  | GetRaises RequestException => false
  | GetRaises _ => true
  | GetResponse status (Raise RequestException) => false
  | GetResponse status (Raise _) => status =? 200
  | GetResponse _ (Ok _) => false
  end.

(** The delivery attempted for the [i]-th article, if any: none when the
    transformation raises, otherwise the article's id with the answer of
    [send_article_email]. *)
Definition attempt_of (env : Env) (cfg : AppConfig) (i : nat) (a : Article)
    : option (Z * bool) :=
  if transform_ok env i then Some (a_id a, dry_run cfg || smtp_accepts env i) else None.

(** The deliveries attempted for a list of articles numbered from [i], in
    the order of the list. *)
Fixpoint attempts_from (env : Env) (cfg : AppConfig) (i : nat) (articles : list Article)
    : list (Z * bool) :=
  match articles with
  | [] => []
  | a :: rest =>
      match attempt_of env cfg i a with
      | Some x => x :: attempts_from env cfg (S i) rest
      | None => attempts_from env cfg (S i) rest
      end
  end.

(** The events of a list of attempts. *)
Definition attempt_events (l : list (Z * bool)) : list event :=
  (λ x, EvDeliver (fst x) (snd x)) <$> l.

(** ** Concrete data for the examples *)

(** What [make_request] hands to its caller for an answer of the
    network. *)
Definition answered {A} (r : response A) : result (option A) :=
  match r with
  | Raises RequestException => Ok None
  | Raises e => Raise e
  | Response status body =>
      if status =? 200 then
        match body with
        | Ok a => Ok (Some a)
        | Raise RequestException => Ok None
        | Raise e => Raise e
        end
      else Ok None
  end.

(** The time [make_request] takes. *)
Definition request_time {A} (cfg : AppConfig) (env : Env) (r : response A) : N :=
  (latency env HttpGet +
   match r with
   | Raises _ => 0
   | Response _ _ => request_delay cfg
   end)%N.

(** The longest a request can take. *)
Definition request_bound (cfg : AppConfig) (env : Env) : Z :=
  Z.of_N (latency env HttpGet) + Z.of_N (request_delay cfg).

(** A valid configuration, for the examples. *)
Definition email_valid : EmailConfig :=
  mkEmailConfig "smtp.gmail.com" 587 "user" "secret" "inbox@library.example"
                "me@mail.example" "EOM Scraper".


(** The default configuration: open content only, one second between
    requests, no credentials. *)
Definition cfg_default : AppConfig := mkAppConfig false true false 1000000.
Definition eom_default : EOMConfig := mkEOMConfig None None.

(** An environment in which SMTP and the disk work, every call takes
    seven microseconds, and the feed answers [h]; [accepts] tells which
    deliveries the channel accepts. *)
Definition env_with (h : http_outcome) (accepts : nat → bool) : Env :=
  mkEnv true h (λ _, true) accepts true FileUntouched (λ _, 7%N).

(** The same, with a disk on which the write of [save_state] fails and
    leaves [left]. *)
Definition env_disk_down (h : http_outcome) (left : write_failure) : Env :=
  mkEnv true h (λ _, true) (λ _, true) false left (λ _, 7%N).

(** An environment whose SMTP check fails. *)
Definition env_offline : Env :=
  mkEnv false (GetResponse 200 (Ok [])) (λ _, true) (λ _, true) true FileUntouched
        (λ _, 7%N).

Definition post_of (id : id_field) : Post := mkPost id "title" "<p>text</p>".

(** A feed that serves as many posts as it is asked for, on every page,
    and an API root that answers with a non-empty document. *)
Definition penv_full : ProbeEnv :=
  mkProbeEnv (Response 200 (Ok true))
             (λ page per_page,
                Response 200 (Ok (replicate (Z.to_nat per_page) (post_of (IdInt (Z.of_nat page))))))
             2.

(** A state with one processed id and watermark 100. *)
Definition st_one : ScraperState := mkState (epoch_isoformat 100) {[2]} 1 "" 0.

(** The scraper object on [st], at clock reading 5000, with an empty
    trace. *)
Definition machine_of (st : ScraperState) : Machine :=
  mkMachine cfg_default eom_default (mkManager (Some st)) 5000 [].


(** Four processed ids, for the examples below. *)
Definition st_four : ScraperState := mkState "" {[1; 2; 3; 4]} 4 "" 0.

(** * Properties of the state store *)

Example ex_cleanup :
  sorted_desc ({[ 3; 1; 2 ]} : gset Z) = [3; 2; 1].
Proof. vm_compute. reflexivity. Qed.

Section StateStoreFacts.

(** ** [mark_post_processed] *)

Lemma mark_post_processed_seen (st : ScraperState) (post_id : Z) :
  post_id ∈ processed_post_ids st →
  mark_post_processed post_id (mkManager (Some st)) = mkManager (Some st).
Proof.
  intros Hin. unfold mark_post_processed; simpl.
  destruct (decide (post_id ∉ processed_post_ids st)) as [Hn|_]; [by destruct Hn|done].
Qed.

Lemma mark_post_processed_fresh (st : ScraperState) (post_id : Z) :
  post_id ∉ processed_post_ids st →
  mark_post_processed post_id (mkManager (Some st)) =
  mkManager (Some (with_ids st ({[post_id]} ∪ processed_post_ids st)
                            (total_posts_processed st + 1))).
Proof.
  intros Hn. unfold mark_post_processed; simpl.
  destruct (decide (post_id ∉ processed_post_ids st)); [done|contradiction].
Qed.

(** C8. Marking an id that is already processed changes neither the set
    nor the counter; marking a fresh id adds it to the set and adds
    exactly one to the counter, every other field kept; so marking the
    same id twice is marking it once. *)
Theorem mark_post_processed_idempotent (st : ScraperState) (post_id : Z) :
  let sm := mkManager (Some st) in
  (post_id ∈ processed_post_ids st → mark_post_processed post_id sm = sm)
  ∧ (post_id ∉ processed_post_ids st →
     mark_post_processed post_id sm =
     mkManager (Some (with_ids st ({[post_id]} ∪ processed_post_ids st)
                               (total_posts_processed st + 1))))
  ∧ mark_post_processed post_id (mark_post_processed post_id sm)
    = mark_post_processed post_id sm.
Proof.
  intros sm. split; [|split].
  - apply mark_post_processed_seen.
  - apply mark_post_processed_fresh.
  - destruct (decide (post_id ∈ processed_post_ids st)) as [Hin|Hn].
    + subst sm. by rewrite !mark_post_processed_seen.
    + subst sm. rewrite (mark_post_processed_fresh _ _ Hn).
      apply mark_post_processed_seen. simpl. set_solver.
Qed.

Lemma mark_post_processed_idempotent_witness :
  mark_post_processed 2 (mkManager (Some st_one)) = mkManager (Some st_one)
  ∧ mark_post_processed 5 (mkManager (Some st_one))
    = mkManager (Some (with_ids st_one ({[5]} ∪ processed_post_ids st_one)
                                (total_posts_processed st_one + 1))).
Proof.
  destruct (mark_post_processed_idempotent st_one 2) as (Hseen & _ & _).
  destruct (mark_post_processed_idempotent st_one 5) as (_ & Hfresh & _).
  split.
  - apply Hseen. simpl. by apply elem_of_singleton.
  - apply Hfresh. simpl. intros Hin. apply elem_of_singleton in Hin. discriminate.
Defined.

(** ** [cleanup_old_processed_ids] *)

#[local] Instance flip_le_trans : Transitive (flip Z.le).
Proof. intros x y z; unfold flip; lia. Qed.

#[local] Instance flip_le_total : Total (flip Z.le).
Proof. intros x y; unfold flip; lia. Qed.

Lemma sorted_desc_perm (ids : gset Z) : sorted_desc ids ≡ₚ elements ids.
Proof. apply merge_sort_Permutation. Qed.

Lemma sorted_desc_sorted (ids : gset Z) : StronglySorted (flip Z.le) (sorted_desc ids).
Proof. apply StronglySorted_merge_sort; apply _. Qed.

Lemma sorted_desc_NoDup (ids : gset Z) : NoDup (sorted_desc ids).
Proof. rewrite sorted_desc_perm. apply NoDup_elements. Qed.

Lemma elem_of_sorted_desc (ids : gset Z) (x : Z) : x ∈ sorted_desc ids ↔ x ∈ ids.
Proof. rewrite sorted_desc_perm. apply elem_of_elements. Qed.

Lemma length_sorted_desc (ids : gset Z) : length (sorted_desc ids) = size ids.
Proof. by rewrite sorted_desc_perm. Qed.

(** The first [n] entries of a duplicate-free descending list dominate
    every other entry. *)
Lemma take_sorted_desc_top (l : list Z) (n : nat) (x y : Z) :
  StronglySorted (flip Z.le) l → NoDup l →
  x ∈ take n l → y ∈ l → y ∉ take n l → y < x.
Proof.
  intros Hs Hnd Hx Hy Hny.
  rewrite <- (take_drop n l) in Hs, Hnd, Hy.
  apply elem_of_app in Hy as [Hy|Hy]; [contradiction|].
  pose proof (StronglySorted_app_1_elem_of _ _ _ _ _ Hs Hx Hy) as Hle.
  unfold flip in Hle.
  apply NoDup_app in Hnd as (_ & Hdisj & _).
  assert (x ≠ y) by (intros ->; by apply (Hdisj y)).
  lia.
Qed.

Lemma highest_take (ids : gset Z) (k : nat) :
  (k ≤ size ids)%nat →
  highest k ids (list_to_set (take k (sorted_desc ids))).
Proof.
  intros Hk. split; [|split].
  - intros x Hx. apply elem_of_list_to_set in Hx.
    apply elem_of_sorted_desc. eapply subseteq_take, Hx.
  - rewrite size_list_to_set.
    + apply length_take_le. by rewrite length_sorted_desc.
    + eapply sublist_NoDup; [apply sorted_desc_NoDup|apply sublist_take].
  - intros x y Hx Hy Hny.
    rewrite elem_of_list_to_set in Hx. rewrite elem_of_list_to_set in Hny.
    eapply take_sorted_desc_top; eauto using sorted_desc_sorted, sorted_desc_NoDup.
    by apply elem_of_sorted_desc.
Qed.

Lemma with_ids_same (st : ScraperState) :
  with_ids st (processed_post_ids st) (total_posts_processed st) = st.
Proof. by destruct st. Qed.

(** Trimming rewrites the id set only. *)
Lemma cleanup_old_processed_ids_Some (st : ScraperState) (C : Z) :
  ∃ kept : gset Z,
    cleanup_old_processed_ids C (mkManager (Some st))
    = mkManager (Some (with_ids st kept (total_posts_processed st))).
Proof.
  unfold cleanup_old_processed_ids; simpl.
  destruct (decide (3 * C < 2 * Z.of_nat (size (processed_post_ids st)))).
  - by eexists.
  - exists (processed_post_ids st). by rewrite with_ids_same.
Qed.

(** C3, as the code has it. For a ceiling [C ≥ 0], trimming rewrites only
    the id set. When the set holds more than [1.5 * C] ids, the ids kept
    are exactly the [C] highest-valued ones; otherwise the set is left as
    it is. Either way at most [1.5 * C] ids remain. *)
Theorem cleanup_old_processed_ids_spec (st : ScraperState) (C : Z) :
  0 ≤ C →
  ∃ kept : gset Z,
    cleanup_old_processed_ids C (mkManager (Some st))
    = mkManager (Some (with_ids st kept (total_posts_processed st)))
    ∧ (if decide (3 * C < 2 * Z.of_nat (size (processed_post_ids st)))
       then highest (Z.to_nat C) (processed_post_ids st) kept
       else kept = processed_post_ids st)
    ∧ 2 * Z.of_nat (size kept) ≤ 3 * C.
Proof.
  intros HC. unfold cleanup_old_processed_ids; simpl.
  destruct (decide (3 * C < 2 * Z.of_nat (size (processed_post_ids st)))) as [Hbig|Hsmall].
  - exists (list_to_set (slice_to C (sorted_desc (processed_post_ids st)))).
    unfold slice_to. rewrite decide_True by done.
    assert (Hk : (Z.to_nat C ≤ size (processed_post_ids st))%nat) by lia.
    pose proof (highest_take _ _ Hk) as Hh.
    split; [done|]. split; [done|].
    destruct Hh as (_ & Hsz & _). rewrite Hsz. lia.
  - exists (processed_post_ids st). rewrite with_ids_same.
    split; [done|]. split; [done|lia].
Qed.

Lemma cleanup_old_processed_ids_spec_witness :
  0 ≤ 2 ∧
  ∃ kept : gset Z,
    cleanup_old_processed_ids 2 (mkManager (Some st_four))
    = mkManager (Some (with_ids st_four kept (total_posts_processed st_four)))
    ∧ (if decide (3 * 2 < 2 * Z.of_nat (size (processed_post_ids st_four)))
       then highest (Z.to_nat 2) (processed_post_ids st_four) kept
       else kept = processed_post_ids st_four)
    ∧ 2 * Z.of_nat (size kept) ≤ 3 * 2.
Proof.
  split; [lia|]. apply (cleanup_old_processed_ids_spec st_four 2). lia.
Defined.

(** C3, as the claim words it, fails: with ceiling 2 a set of three ids is
    below the trimming threshold, stays as it is, and exceeds the
    ceiling. *)
Lemma cleanup_old_processed_ids_counterexample :
  let st := mkState "" {[1; 2; 3]} 3 "" 0 in
  cleanup_old_processed_ids 2 (mkManager (Some st)) = mkManager (Some st)
  ∧ size (processed_post_ids st) = 3%nat
  ∧ ¬ (Z.of_nat (size (processed_post_ids st)) ≤ 2).
Proof.
  intros st. assert (Hsz : size (processed_post_ids st) = 3%nat) by (vm_compute; reflexivity).
  split; [|split; [done|lia]].
  unfold cleanup_old_processed_ids; simpl state. cbv iota beta.
  rewrite Hsz. rewrite decide_False by lia. done.
Qed.

(** A trim that does fire: ceiling 2 on four ids keeps the two highest. *)
Example cleanup_fires :
  option_map (λ st, elements (processed_post_ids st))
    (state (cleanup_old_processed_ids 2 (mkManager (Some st_four))))
  = Some [3; 4].
Proof. vm_compute. reflexivity. Qed.

(** ** [load_state] and the codec *)

Lemma replace_Z_no_Z (s : string) : no_Z s = true → replace_Z s = s.
Proof.
  induction s as [|c r IH]; [done|]. simpl.
  destruct (Ascii.eqb c "Z"); simpl; [done|]. intros Hr. by rewrite IH.
Qed.

Lemma ints_of_fmap (l : list Z) : ints_of (JInt <$> l) = Some l.
Proof. induction l as [|z l IH]; [done|]. rewrite fmap_cons. cbn [ints_of]. by rewrite IH. Qed.

(** What [save_state] writes, [load_state] reads back. *)
Lemma hashable_fmap (l : list Z) : existsb unhashable (JInt <$> l) = false.
Proof. induction l as [|z l IH]; [done|]. rewrite fmap_cons. exact IH. Qed.

Lemma from_dict_to_dict (st : ScraperState) : from_dict (to_dict st) = Some (Ok st).
Proof.
  destruct st as [ts ids total lsr errs].
  unfold from_dict, to_dict, get_str, get_ids, get_int; simpl.
  by rewrite hashable_fmap, ints_of_fmap, list_to_set_elements_L.
Qed.

Section Codec.
Context `{IsoCodec}.



(** The part of C6 the code keeps: a missing state file, and a file whose
    text is not JSON, give a fresh state (watermark the current time, no
    id, counters 0) and no exception. *)
Lemma load_state_recovers (file : option file_content) (now : datetime) (sm : StateManager) :
  file = None ∨ file = Some NotJson →
  load_state file now sm
  = Some (Ok (mkState (isoformat now) ∅ 0 "" 0),
          mkManager (Some (mkState (isoformat now) ∅ 0 "" 0))).
Proof. by intros [-> | ->]. Qed.

(** C6, on the inputs where the code departs from it. A state file that
    holds valid JSON other than an object (here the empty array), a file
    whose bytes are not UTF-8, and an object whose [processed_post_ids]
    is null make [load_state] raise to its caller: the handler names
    [json.JSONDecodeError] and [KeyError] only. *)
Theorem load_state_malformed_raises (now : datetime) (sm : StateManager) :
  load_state (Some (Json (JArr []))) now sm = Some (Raise AttributeError, sm)
  ∧ load_state (Some NotUtf8) now sm = Some (Raise UnicodeDecodeError, sm)
  ∧ load_state (Some (Json (JObj [("processed_post_ids", JNull)]))) now sm
    = Some (Raise TypeError, sm).
Proof. repeat split. Qed.

End Codec.

End StateStoreFacts.

(** * Properties of one run *)

Section RunFacts.
Context `{IsoCodec}.
Variable env : Env.

(** ** The stages of a run, in closed form *)

Lemma test_connection_eq cfg eom sm clk tr :
  test_connection env (mkMachine cfg eom sm clk tr)
  = (Ok (connected cfg env), mkMachine cfg eom sm (clk + smtp_time cfg env) tr).
Proof.
  unfold test_connection, connected, smtp_time, bind, get_machine, elapse, ret; simpl.
  destruct (dry_run cfg); simpl; [by rewrite Z.add_0_r|done].
Qed.

Lemma get_posts_since_eq since cfg eom sm clk tr :
  get_posts_since env since (mkMachine cfg eom sm clk tr)
  = (fetched (http env),
     mkMachine cfg eom sm (clk + Z.of_N (fetch_time cfg env))
       (tr ++ [EvFetch clk since])).
Proof.
  unfold get_posts_since, _make_request, fetched, fetch_time,
    bind, try_catch, get_machine, emit, elapse, raise, ret; simpl.
  destruct (http env) as [e|status body]; simpl.
  - rewrite N.add_0_r. by destruct e.
  - rewrite N2Z.inj_add, Z.add_assoc.
    destruct (status =? 200); [|done].
    destruct body as [posts|e]; [done|by destruct e].
Qed.

Lemma save_state_eq cfg eom st clk tr :
  save_state env (mkMachine cfg eom (mkManager (Some st)) clk tr)
  = (Ok (disk_ok env),
     mkMachine cfg eom (mkManager (Some st))
       (clk + Z.of_N (latency env DiskWrite))
       (tr ++ [EvSave (to_dict st) (disk_ok env)])).
Proof. reflexivity. Qed.

(** ** The delivery loop *)

Lemma loop_event_cons cfg a articles e :
  loop_event env cfg articles e → loop_event env cfg (a :: articles) e.
Proof.
  intros (id & i & b & -> & Ht & Hin & Hid).
  exists id, i, b. repeat split; auto. by right.
Qed.

(** One iteration, exception caught: at most one delivery event, the id
    marked when it succeeded, and time that does not run backwards. *)
Lemma process_one_caught n i a cfg eom sm clk tr :
  ∃ (evs : list event) (d : N),
    try_catch (process_one env n i a) (λ _, ret false) (mkMachine cfg eom sm clk tr)
    = (Ok (match delivered evs with [] => false | _ :: _ => true end),
       mkMachine cfg eom (mark_all (delivered evs) sm) (clk + Z.of_N d) (tr ++ evs))
    ∧ (length (delivered evs) ≤ 1)%nat
    ∧ Forall (loop_event env cfg [a]) evs.
Proof.
  unfold process_one, send_article_email, try_catch, bind, get_machine, elapse,
    emit, raise, ret, modify_manager, set_manager; simpl.
  destruct (transform_ok env i) eqn:Ht; simpl.
  2: { exists [], (latency env (Item i)). rewrite app_nil_r.
       split; [done|split; [simpl; lia|constructor]]. }
  assert (Hev : loop_event env cfg [a]
                  (EvDeliver (a_id a) (dry_run cfg || smtp_accepts env i))).
  { exists (a_id a), i, a. repeat split; auto. by left. }
  exists [EvDeliver (a_id a) (dry_run cfg || smtp_accepts env i)],
    (latency env (Item i) + if (i <? n)%nat then two_seconds else 0)%N.
  rewrite N2Z.inj_add, Z.add_assoc.
  destruct (dry_run cfg); simpl;
    [|destruct (smtp_accepts env i); simpl];
    destruct (i <? n)%nat; simpl; rewrite ?Z.add_0_r;
    (split; [done|split; [simpl; lia|by constructor]]).
Qed.

Lemma delivered_app evs1 evs2 : delivered (evs1 ++ evs2) = delivered evs1 ++ delivered evs2.
Proof. apply omap_app. Qed.

Lemma mark_all_app ids1 ids2 sm :
  mark_all (ids1 ++ ids2) sm = mark_all ids2 (mark_all ids1 sm).
Proof. apply foldl_app. Qed.

(** The loop never raises. It returns the count it was given plus the
    number of successful deliveries, marks exactly their ids, and adds
    delivery events only. *)
Lemma process_loop_spec n articles : ∀ i processed_count cfg eom sm clk tr,
  ∃ (evs : list event) (d : N),
    process_loop env n i articles processed_count (mkMachine cfg eom sm clk tr)
    = (Ok (processed_count + Z.of_nat (length (delivered evs))),
       mkMachine cfg eom (mark_all (delivered evs) sm) (clk + Z.of_N d) (tr ++ evs))
    ∧ Forall (loop_event env cfg articles) evs.
Proof.
  induction articles as [|a rest IH]; intros i processed_count cfg eom sm clk tr.
  - exists [], 0%N. simpl. rewrite app_nil_r, !Z.add_0_r. by split.
  - destruct (process_one_caught n i a cfg eom sm clk tr)
      as (evs1 & d1 & Heq1 & Hlen1 & Hev1).
    destruct (IH (S i)
                (if match delivered evs1 with [] => false | _ :: _ => true end
                 then processed_count + 1 else processed_count)
                cfg eom (mark_all (delivered evs1) sm) (clk + Z.of_N d1) (tr ++ evs1))
      as (evs2 & d2 & Heq2 & Hev2).
    exists (evs1 ++ evs2), (d1 + d2)%N.
    cbn [process_loop]. unfold bind at 1. rewrite Heq1, Heq2.
    rewrite delivered_app, mark_all_app, length_app, app_assoc, N2Z.inj_add, Z.add_assoc.
    split.
    + f_equal. f_equal.
      destruct (delivered evs1) as [|x [|y l]]; simpl in *; lia.
    + apply Forall_app. split.
      * eapply Forall_impl; [exact Hev1|].
        intros e (id & j & b & -> & Ht & Hin & Hid).
        exists id, j, b. repeat split; auto.
        apply list_elem_of_singleton in Hin as ->. by left.
      * eapply Forall_impl; [exact Hev2|]. intros e. apply loop_event_cons.
Qed.

(** ** Commits on a loaded state *)

Lemma mark_post_processed_Some id st :
  mark_post_processed id (mkManager (Some st)) = mkManager (Some (marked id st)).
Proof.
  unfold mark_post_processed, marked; simpl.
  by destruct (decide (id ∉ processed_post_ids st)).
Qed.

Lemma mark_all_Some ids : ∀ st,
  mark_all ids (mkManager (Some st)) = mkManager (Some (committed ids st)).
Proof.
  induction ids as [|id ids IH]; intros st; [done|].
  unfold mark_all, committed in *. simpl. rewrite mark_post_processed_Some. apply IH.
Qed.

Lemma marked_fields id st :
  last_check_timestamp (marked id st) = last_check_timestamp st
  ∧ last_successful_run (marked id st) = last_successful_run st
  ∧ errors_count (marked id st) = errors_count st
  ∧ processed_post_ids (marked id st) = {[id]} ∪ processed_post_ids st
  ∧ total_posts_processed st ≤ total_posts_processed (marked id st).
Proof.
  unfold marked. destruct (decide (id ∉ processed_post_ids st)) as [Hn|Hin]; simpl.
  - repeat split; lia.
  - repeat split; try lia. apply dec_stable in Hin. set_solver.
Qed.

(** The commits of a pass touch the id set and the counter only: the set
    grows by the committed ids, the counter does not decrease. *)
Lemma committed_fields ids : ∀ st,
  last_check_timestamp (committed ids st) = last_check_timestamp st
  ∧ last_successful_run (committed ids st) = last_successful_run st
  ∧ errors_count (committed ids st) = errors_count st
  ∧ processed_post_ids (committed ids st) = list_to_set ids ∪ processed_post_ids st
  ∧ total_posts_processed st ≤ total_posts_processed (committed ids st).
Proof.
  induction ids as [|id ids IH]; intros st.
  - unfold committed; simpl. repeat split; try lia. set_solver.
  - destruct (IH (marked id st)) as (H1 & H2 & H3 & H4 & H5).
    destruct (marked_fields id st) as (G1 & G2 & G3 & G4 & G5).
    change (committed (id :: ids) st) with (committed ids (marked id st)).
    rewrite H1, H2, H3, H4, G1, G2, G3, G4.
    repeat split; try lia. set_solver.
Qed.

(** ** The paths of [run] *)

Lemma _get_new_articles_eq cfg eom sm clk tr :
  _get_new_articles env (mkMachine cfg eom sm clk tr)
  = (match fetched (http env) with
     | Ok posts => Ok (filter_new cfg sm posts)
     | Raise e => Raise e
     end,
     mkMachine cfg eom sm (clk + Z.of_N (fetch_time cfg env))
       (tr ++ [EvFetch clk (get_last_check_datetime clk sm)])).
Proof.
  unfold _get_new_articles. unfold bind at 1, get_machine at 1. cbn [clock state_manager].
  unfold bind. rewrite get_posts_since_eq.
  destruct (fetched (http env)) as [[|p posts]|e]; reflexivity.
Qed.

(** The authentication step: [authenticate] answers [False] on both of
    its paths, so premium processing is switched off for the run. *)
Lemma adjust_premium_off cfg eom :
  process_premium_content (adjust_premium cfg eom) = false.
Proof.
  unfold adjust_premium, authenticate.
  destruct (process_premium_content cfg) eqn:Hp; [|done].
  by destruct (negb (truthy_str (username eom)) || negb (truthy_str (password eom))).
Qed.

Lemma adjust_premium_dry_run cfg eom : dry_run (adjust_premium cfg eom) = dry_run cfg.
Proof.
  unfold adjust_premium.
  destruct (process_premium_content cfg); [|done]. by destruct (negb (authenticate eom)).
Qed.

Lemma adjust_premium_delay cfg eom : request_delay (adjust_premium cfg eom) = request_delay cfg.
Proof.
  unfold adjust_premium.
  destruct (process_premium_content cfg); [|done]. by destruct (negb (authenticate eom)).
Qed.

(** The part of [run_body] before the fetch. *)
Lemma run_body_prefix cfg eom sm clk tr :
  run_body env (mkMachine cfg eom sm clk tr)
  = if connected cfg env then
      bind (_get_new_articles env)
        (λ new_articles,
           match new_articles with
           | [] =>
               bind (now) (λ t,
               bind (modify_manager (mark_successful_run t)) (λ _,
               bind (save_state env) (λ _, ret true)))
           | _ :: _ =>
               bind (_process_articles env new_articles) (λ processed_count,
               bind (if 0 <? processed_count then
                       bind now (λ t,
                       bind (modify_manager (update_last_check t)) (λ _,
                       bind now (λ t',
                       bind (modify_manager (mark_successful_run t')) (λ _,
                       modify_manager (cleanup_old_processed_ids 1000)))))
                     else ret tt) (λ _,
               bind (save_state env) (λ _, ret true)))
           end)
        (mkMachine (adjust_premium cfg eom) eom sm (clk + smtp_time cfg env) tr)
    else (Ok false, mkMachine cfg eom sm (clk + smtp_time cfg env) tr).
Proof.
  unfold run_body. unfold bind at 1. rewrite test_connection_eq.
  destruct (connected cfg env); [|reflexivity].
  cbn [negb]. unfold bind at 1, get_machine at 1. cbn [app_config eom_config].
  unfold bind at 1. unfold adjust_premium.
  destruct (process_premium_content cfg); [|reflexivity].
  destruct (negb (authenticate eom)); reflexivity.
Qed.

(** The SMTP check fails: [run] returns [False] at once; nothing is
    fetched, changed or saved. *)
Lemma run_aborted cfg eom sm clk tr :
  connected cfg env = false →
  run env (mkMachine cfg eom sm clk tr)
  = (Ok false, mkMachine cfg eom sm (clk + smtp_time cfg env) tr).
Proof.
  intros Hc. unfold run, try_catch. by rewrite run_body_prefix, Hc.
Qed.

(** An exception leaves the fetch: the handler counts an error and saves. *)
Lemma run_crashed cfg eom st clk tr e :
  connected cfg env = true →
  fetched (http env) = Raise e →
  let cfg1 := adjust_premium cfg eom in
  let clk1 := clk + smtp_time cfg env in
  let st' := mkState (last_check_timestamp st) (processed_post_ids st)
               (total_posts_processed st) (last_successful_run st) (errors_count st + 1) in
  run env (mkMachine cfg eom (mkManager (Some st)) clk tr)
  = (Ok false,
     mkMachine cfg1 eom (mkManager (Some st'))
       (clk1 + Z.of_N (fetch_time cfg1 env) + Z.of_N (latency env DiskWrite))
       (tr ++ [EvFetch clk1 (get_last_check_datetime clk1 (mkManager (Some st)))]
           ++ [EvSave (to_dict st') (disk_ok env)])).
Proof.
  intros Hc Hf cfg1 clk1 st'. unfold run, try_catch.
  rewrite run_body_prefix, Hc. unfold bind at 1.
  rewrite _get_new_articles_eq, Hf.
  unfold bind, modify_manager, increment_error_count, set_manager, ret.
  cbn [state state_manager app_config eom_config clock trace].
  rewrite save_state_eq. by rewrite <- app_assoc.
Qed.

(** No new article: the run is marked successful and saved. *)
Lemma run_idle cfg eom st clk tr posts :
  connected cfg env = true →
  fetched (http env) = Ok posts →
  filter_new (adjust_premium cfg eom) (mkManager (Some st)) posts = [] →
  let cfg1 := adjust_premium cfg eom in
  let clk1 := clk + smtp_time cfg env in
  let clk2 := clk1 + Z.of_N (fetch_time cfg1 env) in
  let st' := mkState (last_check_timestamp st) (processed_post_ids st)
               (total_posts_processed st) (isoformat clk2) (errors_count st) in
  run env (mkMachine cfg eom (mkManager (Some st)) clk tr)
  = (Ok true,
     mkMachine cfg1 eom (mkManager (Some st'))
       (clk2 + Z.of_N (latency env DiskWrite))
       (tr ++ [EvFetch clk1 (get_last_check_datetime clk1 (mkManager (Some st)))]
           ++ [EvSave (to_dict st') (disk_ok env)])).
Proof.
  intros Hc Hf Hnew cfg1 clk1 clk2 st'. unfold run, try_catch.
  rewrite run_body_prefix, Hc. unfold bind at 1.
  rewrite _get_new_articles_eq, Hf. subst cfg1. rewrite Hnew.
  unfold now, bind, get_machine, modify_manager, mark_successful_run, set_manager, ret.
  cbn [state state_manager app_config eom_config clock trace].
  rewrite save_state_eq. by rewrite <- app_assoc.
Qed.

(** There are new articles: the loop runs; when it delivered something
    the watermark and the last successful run are set to the clock reading
    after the loop and the id set is trimmed; then the state is saved. *)
Lemma run_processed cfg eom st clk tr posts a rest :
  connected cfg env = true →
  fetched (http env) = Ok posts →
  filter_new (adjust_premium cfg eom) (mkManager (Some st)) posts = a :: rest →
  let cfg1 := adjust_premium cfg eom in
  let clk1 := clk + smtp_time cfg env in
  let clk2 := clk1 + Z.of_N (fetch_time cfg1 env) in
  ∃ (evs : list event) (d : N) (st' : ScraperState),
    run env (mkMachine cfg eom (mkManager (Some st)) clk tr)
    = (Ok true,
       mkMachine cfg1 eom (mkManager (Some st'))
         (clk2 + Z.of_N d + Z.of_N (latency env DiskWrite))
         (tr ++ [EvFetch clk1 (get_last_check_datetime clk1 (mkManager (Some st)))]
             ++ evs ++ [EvSave (to_dict st') (disk_ok env)]))
    ∧ Forall (loop_event env cfg1 (a :: rest)) evs
    ∧ mkManager (Some st')
      = match delivered evs with
        | [] => mkManager (Some st)
        | _ :: _ =>
            cleanup_old_processed_ids 1000
              (mkManager (Some (stamped (clk2 + Z.of_N d) (committed (delivered evs) st))))
        end.
Proof.
  intros Hc Hf Hnew cfg1 clk1 clk2. subst cfg1 clk1 clk2.
  set (cfg1 := adjust_premium cfg eom) in *.
  set (clk1 := clk + smtp_time cfg env) in *.
  set (clk2 := clk1 + Z.of_N (fetch_time cfg1 env)) in *.
  destruct (process_loop_spec (length (a :: rest)) (a :: rest) 1%nat 0 cfg1 eom
              (mkManager (Some st)) clk2
              (tr ++ [EvFetch clk1 (get_last_check_datetime clk1 (mkManager (Some st)))]))
    as (evs & d & Heq & Hev).
  rewrite mark_all_Some in Heq.
  assert (Hrun : ∀ st',
    mkManager (Some st')
    = match delivered evs with
      | [] => mkManager (Some st)
      | _ :: _ =>
          cleanup_old_processed_ids 1000
            (mkManager (Some (stamped (clk2 + Z.of_N d) (committed (delivered evs) st))))
      end →
    run env (mkMachine cfg eom (mkManager (Some st)) clk tr)
    = (Ok true,
       mkMachine cfg1 eom (mkManager (Some st'))
         (clk2 + Z.of_N d + Z.of_N (latency env DiskWrite))
         (tr ++ [EvFetch clk1 (get_last_check_datetime clk1 (mkManager (Some st)))]
             ++ evs ++ [EvSave (to_dict st') (disk_ok env)]))).
  { intros st' Hst'. unfold run, try_catch.
    rewrite run_body_prefix, Hc. unfold bind at 1.
    rewrite _get_new_articles_eq, Hf. fold cfg1 clk1 clk2. rewrite Hnew.
    unfold bind at 1. unfold _process_articles. rewrite Heq.
    destruct (delivered evs) as [|id ids] eqn:Hd.
    - change (committed [] st) with st. injection Hst' as ->.
      change (0 <? 0 + Z.of_nat (length (@nil Z))) with false.
      unfold bind, ret. rewrite save_state_eq. by rewrite <- !app_assoc.
    - assert (Hpos : (0 <? 0 + Z.of_nat (length (id :: ids))) = true)
        by (apply Z.ltb_lt; simpl; lia).
      rewrite Hpos.
      unfold now, bind, get_machine, modify_manager, set_manager, ret.
      cbn [state state_manager app_config eom_config clock trace].
      change (mark_successful_run (clk2 + Z.of_N d)
                (update_last_check (clk2 + Z.of_N d)
                   (mkManager (Some (committed (id :: ids) st)))))
        with (mkManager (Some (stamped (clk2 + Z.of_N d) (committed (id :: ids) st)))).
      rewrite <- Hst'. rewrite save_state_eq. by rewrite <- !app_assoc. }
  destruct (delivered evs) as [|id ids] eqn:Hd.
  - exists evs, d, st. rewrite Hd. split; [by apply Hrun|]. by split.
  - destruct (cleanup_old_processed_ids_Some
                (stamped (clk2 + Z.of_N d) (committed (id :: ids) st)) 1000)
      as (kept & Hk).
    eexists evs, d, _. rewrite Hd. split; [apply Hrun; by rewrite Hk|].
    split; [done|by rewrite Hk].
Qed.

(** ** Reading a run's events *)

Lemma delivered_run_events fetch evs save_doc written :
  delivered ([EvFetch (fst fetch) (snd fetch)] ++ evs ++ [EvSave save_doc written])
  = delivered evs.
Proof.
  rewrite !delivered_app. simpl. by rewrite app_nil_r.
Qed.

Lemma loop_event_saves cfg articles evs :
  Forall (loop_event env cfg articles) evs → saves evs = [].
Proof.
  induction 1 as [|e evs (id & i & a & -> & _) _ IH]; [done|]. simpl. apply IH.
Qed.

(** A fetch that yields a candidate got a response. *)
Lemma fetched_response cfg sm posts a rest :
  fetched (http env) = Ok posts →
  filter_new cfg sm posts = a :: rest →
  ∃ status body, http env = GetResponse status body.
Proof.
  intros Hf Hnew. destruct (http env) as [e|status body]; [|by eauto].
  destruct e; simpl in Hf; try discriminate. injection Hf as <-. discriminate.
Qed.

(** The state a trim leaves has the watermark it was given. *)
Lemma cleanup_fields C st st' :
  mkManager (Some st') = cleanup_old_processed_ids C (mkManager (Some st)) →
  last_check_timestamp st' = last_check_timestamp st
  ∧ last_successful_run st' = last_successful_run st
  ∧ errors_count st' = errors_count st
  ∧ total_posts_processed st' = total_posts_processed st
  ∧ processed_post_ids st' ⊆ processed_post_ids st.
Proof.
  unfold cleanup_old_processed_ids; simpl.
  destruct (decide (3 * C < 2 * Z.of_nat (size (processed_post_ids st)))).
  - intros [= ->]. simpl. repeat split.
    intros x Hx. apply elem_of_list_to_set in Hx. apply elem_of_sorted_desc.
    unfold slice_to in Hx. destruct (decide (0 ≤ C)); eapply subseteq_take, Hx.
  - by intros [= ->].
Qed.

(** ** Candidates *)

Lemma filter_new_app cfg sm l1 l2 :
  filter_new cfg sm (l1 ++ l2) = filter_new cfg sm l1 ++ filter_new cfg sm l2.
Proof.
  induction l1 as [|p l1 IH]; [done|]. simpl.
  destruct (truthy_id (post_get_id p)); simpl; [|done].
  destruct (post_get_id p) as [id|]; [|done].
  destruct (is_post_processed id sm); [done|].
  destruct (_should_process_article cfg (extract_post_metadata p)); simpl; [|done].
  by rewrite IH.
Qed.

Lemma filter_new_falsy cfg sm l1 p l2 :
  truthy_id (post_get_id p) = false →
  filter_new cfg sm (l1 ++ p :: l2) = filter_new cfg sm (l1 ++ l2).
Proof.
  intros Hp. rewrite !filter_new_app. f_equal. simpl. by rewrite Hp.
Qed.

(** The id of every candidate is the integer its metadata holds, is not
    0 and is not yet processed. *)
Lemma filter_new_ids cfg sm posts a :
  a ∈ filter_new cfg sm posts →
  ∃ id, a_id a = id ∧ m_id (a_metadata a) = Some id
        ∧ id ≠ 0 ∧ is_post_processed id sm = false.
Proof.
  induction posts as [|p posts IH]; simpl; [by intros ?%elem_of_nil|].
  destruct (truthy_id (post_get_id p)) eqn:Ht; simpl; [|done].
  destruct (post_get_id p) as [id|] eqn:Hid; [|done].
  destruct (is_post_processed id sm) eqn:Hp; [done|].
  destruct (_should_process_article cfg (extract_post_metadata p)); simpl; [|done].
  intros [->|Hin]%elem_of_cons; [|by apply IH].
  exists id. simpl. split; [done|]. split; [done|]. split; [|done].
  simpl in Ht. intros ->. discriminate.
Qed.

Lemma loop_event_delivered cfg articles evs id :
  Forall (loop_event env cfg articles) evs → id ∈ delivered evs →
  ∃ a, a ∈ articles ∧ a_id a = id.
Proof.
  induction 1 as [|e evs (id' & i & a & -> & _ & Hin & Hid) _ IH]; simpl.
  - by intros ?%elem_of_nil.
  - destruct (dry_run cfg || smtp_accepts env i); [|done].
    intros [->|Hd]%elem_of_cons; [by eauto|by apply IH].
Qed.

(** ** What every run leaves behind *)

(** A run never raises and leaves a loaded state loaded. Time does not
    run backwards. Ids enter the set only by a successful delivery, and
    only ids that are not 0 and were not in the set are delivered. The
    watermark is the old one when nothing was delivered, and a clock
    reading of the run otherwise. *)
Lemma run_frame cfg eom st clk tr :
  ∃ (r : bool) (cfg' : AppConfig) (st' : ScraperState) (clk' : datetime)
    (evs : list event),
    run env (mkMachine cfg eom (mkManager (Some st)) clk tr)
    = (Ok r, mkMachine cfg' eom (mkManager (Some st')) clk' (tr ++ evs))
    ∧ clk ≤ clk'
    ∧ processed_post_ids st' ⊆ list_to_set (delivered evs) ∪ processed_post_ids st
    ∧ (∀ id, id ∈ delivered evs → id ≠ 0 ∧ id ∉ processed_post_ids st)
    ∧ (delivered evs = [] → last_check_timestamp st' = last_check_timestamp st)
    ∧ (delivered evs ≠ [] →
       ∃ t, clk ≤ t ∧ t ≤ clk' ∧ last_check_timestamp st' = isoformat t).
Proof.
  assert (Hsmtp : 0 ≤ smtp_time cfg env) by (unfold smtp_time; destruct (dry_run cfg); lia).
  destruct (connected cfg env) eqn:Hc.
  2: { rewrite (run_aborted cfg eom _ clk tr Hc).
       exists false, cfg, st, (clk + smtp_time cfg env), [].
       rewrite app_nil_r. split; [done|]. split; [lia|]. simpl.
       split; [set_solver|]. split; [by intros ? ?%elem_of_nil|]. by split. }
  destruct (fetched (http env)) as [posts|e] eqn:Hf.
  2: { rewrite (run_crashed cfg eom st clk tr e Hc Hf). eexists false, _, _, _, _.
       split; [done|]. split; [lia|]. simpl.
       split; [set_solver|]. split; [by intros ? ?%elem_of_nil|]. by split. }
  destruct (filter_new (adjust_premium cfg eom) (mkManager (Some st)) posts)
    as [|a rest] eqn:Hnew.
  { rewrite (run_idle cfg eom st clk tr posts Hc Hf Hnew). eexists true, _, _, _, _.
    split; [done|]. split; [lia|]. simpl.
    split; [set_solver|]. split; [by intros ? ?%elem_of_nil|]. by split. }
  destruct (run_processed cfg eom st clk tr posts a rest Hc Hf Hnew)
    as (evs & d & st' & -> & Hev & Hst').
  eexists true, _, st', _, _. split; [done|]. split; [lia|].
  change (delivered (?f ++ evs ++ ?s)) with (delivered (f ++ evs ++ s)).
  rewrite delivered_app, delivered_app. simpl. rewrite app_nil_r.
  assert (Hids : ∀ id, id ∈ delivered evs → id ≠ 0 ∧ id ∉ processed_post_ids st).
  { intros id Hid.
    destruct (loop_event_delivered _ _ _ _ Hev Hid) as (b & Hb & Hbid).
    rewrite <- Hnew in Hb. apply filter_new_ids in Hb as (id' & Hid' & _ & Hnz & Hnp).
    assert (id' = id) as -> by congruence. split; [done|].
    simpl in Hnp. by apply bool_decide_eq_false in Hnp. }
  destruct (committed_fields (delivered evs) st) as (C1 & C2 & C3 & C4 & C5).
  destruct (delivered evs) as [|id ids] eqn:Hd.
  - injection Hst' as ->. split; [set_solver|]. split; [done|]. by split.
  - apply cleanup_fields in Hst' as (Hw & _ & _ & _ & Hsub). simpl in Hw, Hsub.
    split; [by rewrite <- C4|]. split; [done|]. split; [done|].
    intros _. exists (clk + smtp_time cfg env
                      + Z.of_N (fetch_time (adjust_premium cfg eom) env) + Z.of_N d).
    split; [lia|]. split; [lia|done].
Qed.

End RunFacts.

(** * Runs that differ in the answer of the feed only *)

Section SameCandidates.
Context `{IsoCodec}.
Variables env1 env2 : Env.
Hypothesis same_smtp : smtp_connects env1 = smtp_connects env2.
Hypothesis same_transform : transform_ok env1 = transform_ok env2.
Hypothesis same_accepts : smtp_accepts env1 = smtp_accepts env2.
Hypothesis same_disk : disk_ok env1 = disk_ok env2.
Hypothesis same_latency : latency env1 = latency env2.

Lemma process_loop_same n articles : ∀ i processed_count m,
  process_loop env1 n i articles processed_count m
  = process_loop env2 n i articles processed_count m.
Proof.
  induction articles as [|a rest IH]; intros i processed_count m; [done|].
  cbn [process_loop].
  change (bind ?c ?k m) with (match c m with
                              | (Ok a, m') => k a m'
                              | (Raise e, m') => (Raise e, m')
                              end).
  replace (try_catch (process_one env1 n i a) (λ _, ret false) m)
    with (try_catch (process_one env2 n i a) (λ _, ret false) m).
  - destruct (try_catch (process_one env2 n i a) (λ _, ret false) m) as [[b|e] m'];
      [apply IH|done].
  - unfold try_catch, process_one, send_article_email.
    by rewrite same_transform, same_accepts, same_latency.
Qed.

Lemma save_state_same m : save_state env1 m = save_state env2 m.
Proof. unfold save_state. by rewrite same_disk, same_latency. Qed.

(** When the two feeds take the same time and yield the same candidates,
    the two runs are the same run. *)
Lemma run_same cfg eom sm clk tr :
  fetch_time (adjust_premium cfg eom) env1 = fetch_time (adjust_premium cfg eom) env2 →
  match fetched (http env1) with
  | Ok posts => Ok (filter_new (adjust_premium cfg eom) sm posts)
  | Raise e => Raise e
  end
  = match fetched (http env2) with
    | Ok posts => Ok (filter_new (adjust_premium cfg eom) sm posts)
    | Raise e => Raise e
    end →
  run env1 (mkMachine cfg eom sm clk tr) = run env2 (mkMachine cfg eom sm clk tr).
Proof.
  intros Htime Hnew. unfold run, try_catch. rewrite !run_body_prefix.
  unfold connected, smtp_time. rewrite same_smtp, same_latency.
  destruct (dry_run cfg || smtp_connects env2); [|done].
  unfold now, bind, get_machine, modify_manager, ret, _process_articles.
  rewrite !_get_new_articles_eq, Htime, Hnew.
  destruct (fetched (http env2)) as [posts|e];
    [destruct (filter_new (adjust_premium cfg eom) sm posts) as [|a rest]|];
    repeat first
      [ done
      | rewrite save_state_same
      | rewrite process_loop_same
      | match goal with
        | |- context [if 0 <? ?c then _ else _] => destruct (0 <? c)
        | |- context [save_state env2 ?m] => destruct (save_state env2 m) as [[?|?] ?]
        | |- context [process_loop env2 ?n ?i ?l ?c ?m] =>
            destruct (process_loop env2 n i l c m) as [[?|?] ?]
        end ].
Qed.

End SameCandidates.

(** * The claims about [run] *)

Section RunClaims.
Context `{IsoCodec}.
Variable env : Env.

(** C1, as the code has it. A transport failure of the fetch (the request
    raises [RequestException], or the status is not 200) is swallowed by
    the adapter: the run ends exactly like a run whose fetch succeeded
    with no item, as "nothing to do": it returns [True], stamps the last
    successful run, leaves [errors_count] alone and saves once. The run
    fails, with [errors_count] incremented before the one save, only for
    an exception that leaves the adapter. *)
Theorem run_fetch_failure cfg eom st clk tr :
  connected cfg env = true →
  let m := mkMachine cfg eom (mkManager (Some st)) clk tr in
  let cfg1 := adjust_premium cfg eom in
  let clk1 := clk + smtp_time cfg env in
  let clk2 := clk1 + Z.of_N (fetch_time cfg1 env) in
  let fetch := EvFetch clk1 (get_last_check_datetime clk1 (mkManager (Some st))) in
  (transport_failure (http env) ∨ http env = GetResponse 200 (Ok []) →
   let st' := mkState (last_check_timestamp st) (processed_post_ids st)
                (total_posts_processed st) (isoformat clk2) (errors_count st) in
   run env m
   = (Ok true,
      mkMachine cfg1 eom (mkManager (Some st')) (clk2 + Z.of_N (latency env DiskWrite))
        (tr ++ [fetch] ++ [EvSave (to_dict st') (disk_ok env)])))
  ∧ (∀ e, e ≠ RequestException →
     http env = GetRaises e ∨ http env = GetResponse 200 (Raise e) →
     let st' := mkState (last_check_timestamp st) (processed_post_ids st)
                  (total_posts_processed st) (last_successful_run st)
                  (errors_count st + 1) in
     run env m
     = (Ok false,
        mkMachine cfg1 eom (mkManager (Some st')) (clk2 + Z.of_N (latency env DiskWrite))
          (tr ++ [fetch] ++ [EvSave (to_dict st') (disk_ok env)]))).
Proof.
  intros Hc m cfg1 clk1 clk2 fetch. split.
  - intros Hfail st'.
    assert (Hf : fetched (http env) = Ok []).
    { destruct Hfail as [[->|(status & body & -> & Hs)]| ->]; simpl; [done| |done].
      by rewrite (proj2 (Z.eqb_neq status 200) Hs). }
    by apply (run_idle env cfg eom st clk tr [] Hc Hf).
  - intros e He Hhttp st'.
    assert (Hf : fetched (http env) = Raise e).
    { destruct Hhttp as [-> | ->]; simpl; by destruct e. }
    by apply (run_crashed env cfg eom st clk tr e Hc Hf).
Qed.

(** C2, as the code has it. After any run, the watermark is unchanged
    when no delivery succeeded. When at least one did, the watermark is
    the clock reading at the end of the pass, when the state is about to
    be saved: the clock at the end of the run less the time of the disk
    write. It is later than the reading at which the fetch was issued by
    at least the duration of the request and the rate-limit sleep. *)
Theorem run_watermark cfg eom st clk tr :
  let m := mkMachine cfg eom (mkManager (Some st)) clk tr in
  ∃ (st' : ScraperState) (evs : list event),
    state (state_manager (snd (run env m))) = Some st'
    ∧ trace (snd (run env m)) = tr ++ evs
    ∧ (delivered evs = [] → last_check_timestamp st' = last_check_timestamp st)
    ∧ (delivered evs ≠ [] →
       let t := clock (snd (run env m)) - Z.of_N (latency env DiskWrite) in
       last_check_timestamp st' = isoformat t
       ∧ ∃ issued since,
           evs !! 0%nat = Some (EvFetch issued since)
           ∧ issued + Z.of_N (latency env HttpGet) + Z.of_N (request_delay cfg) ≤ t).
Proof.
  intros m. subst m.
  destruct (connected cfg env) eqn:Hc.
  2: { rewrite (run_aborted env cfg eom _ clk tr Hc). exists st, []. simpl.
       rewrite app_nil_r. by repeat split. }
  destruct (fetched (http env)) as [posts|e] eqn:Hf.
  2: { rewrite (run_crashed env cfg eom st clk tr e Hc Hf). eexists _, _. simpl.
       split; [done|]. split; [done|]. by split. }
  destruct (filter_new (adjust_premium cfg eom) (mkManager (Some st)) posts)
    as [|a rest] eqn:Hnew.
  { rewrite (run_idle env cfg eom st clk tr posts Hc Hf Hnew). eexists _, _. simpl.
    split; [done|]. split; [done|]. by split. }
  destruct (run_processed env cfg eom st clk tr posts a rest Hc Hf Hnew)
    as (evs & d & st' & -> & Hev & Hst').
  destruct (fetched_response env _ _ _ _ _ Hf Hnew) as (status & body & Hhttp).
  eexists st', _. simpl. split; [done|]. split; [done|].
  change (delivered (?f :: evs ++ ?s)) with (delivered ([f] ++ evs ++ s)).
  rewrite delivered_app, delivered_app. simpl. rewrite app_nil_r.
  split.
  - intros Hd. rewrite Hd in Hst'. by injection Hst' as ->.
  - intros Hd. destruct (delivered evs) as [|id ids]; [done|].
    apply cleanup_fields in Hst' as (Hw & _). simpl in Hw.
    split.
    + rewrite Hw. f_equal. lia.
    + eexists _, _. split; [done|].
      unfold fetch_time. rewrite Hhttp, adjust_premium_delay. lia.
Qed.

(** C5, as the code has it. A run whose SMTP check succeeds saves the
    state exactly once, on the success, the nothing-to-do and the failure
    path alike: the save is the last event of the run, and the document
    saved is the state the run ends with. A run whose SMTP check fails
    returns before the fetch: it saves nothing and changes nothing. *)
Theorem run_saves_once cfg eom st clk tr :
  let m := mkMachine cfg eom (mkManager (Some st)) clk tr in
  ∃ (st' : ScraperState) (evs : list event),
    state (state_manager (snd (run env m))) = Some st'
    ∧ trace (snd (run env m)) = tr ++ evs
    ∧ if connected cfg env
      then ∃ evs0, evs = evs0 ++ [EvSave (to_dict st') (disk_ok env)] ∧ saves evs0 = []
      else evs = [] ∧ st' = st ∧ fst (run env m) = Ok false.
Proof.
  intros m. subst m.
  destruct (connected cfg env) eqn:Hc.
  2: { rewrite (run_aborted env cfg eom _ clk tr Hc). exists st, []. simpl.
       by rewrite app_nil_r. }
  destruct (fetched (http env)) as [posts|e] eqn:Hf.
  2: { rewrite (run_crashed env cfg eom st clk tr e Hc Hf). eexists _, _. simpl.
       split; [done|]. split; [done|]. by eexists [_]. }
  destruct (filter_new (adjust_premium cfg eom) (mkManager (Some st)) posts)
    as [|a rest] eqn:Hnew.
  { rewrite (run_idle env cfg eom st clk tr posts Hc Hf Hnew). eexists _, _. simpl.
    split; [done|]. split; [done|]. by eexists [_]. }
  destruct (run_processed env cfg eom st clk tr posts a rest Hc Hf Hnew)
    as (evs & d & st' & -> & Hev & Hst').
  eexists st', _. simpl. split; [done|]. split; [done|].
  eexists (_ :: evs). split; [done|]. simpl. eapply loop_event_saves, Hev.
Qed.

(** C7. The fetch returns items and no delivery succeeds (for every
    article the transformation raises or [send_article_email] answers
    [False]): the run returns [True], nothing is recorded as delivered,
    and the id set, the counter, the watermark and [errors_count] are what
    they were. *)
Theorem run_all_deliveries_fail cfg eom st clk tr posts :
  connected cfg env = true →
  http env = GetResponse 200 (Ok posts) →
  (∀ i, transform_ok env i && (dry_run cfg || smtp_accepts env i) = false) →
  ∃ (m' : Machine) (st' : ScraperState),
    run env (mkMachine cfg eom (mkManager (Some st)) clk tr) = (Ok true, m')
    ∧ state (state_manager m') = Some st'
    ∧ processed_post_ids st' = processed_post_ids st
    ∧ total_posts_processed st' = total_posts_processed st
    ∧ last_check_timestamp st' = last_check_timestamp st
    ∧ errors_count st' = errors_count st
    ∧ delivered (drop (length tr) (trace m')) = [].
Proof.
  intros Hc Hhttp Hfail.
  assert (Hf : fetched (http env) = Ok posts) by (by rewrite Hhttp).
  destruct (filter_new (adjust_premium cfg eom) (mkManager (Some st)) posts)
    as [|a rest] eqn:Hnew.
  { rewrite (run_idle env cfg eom st clk tr posts Hc Hf Hnew). eexists _, _.
    split; [done|]. simpl. rewrite drop_app_length. by repeat split. }
  destruct (run_processed env cfg eom st clk tr posts a rest Hc Hf Hnew)
    as (evs & d & st' & -> & Hev & Hst').
  assert (Hd : delivered evs = []).
  { clear Hst'. induction Hev as [|e evs (id & i & b & -> & Ht & _) _ IH]; [done|].
    simpl. rewrite adjust_premium_dry_run.
    specialize (Hfail i). rewrite Ht in Hfail. simpl in Hfail. by rewrite Hfail. }
  rewrite Hd in Hst'. injection Hst' as ->.
  eexists _, _. split; [done|]. simpl. rewrite drop_app_length.
  change (delivered (?f :: evs ++ ?s)) with (delivered ([f] ++ evs ++ s)).
  rewrite delivered_app, delivered_app, Hd. by repeat split.
Qed.


(** C10. A feed item whose id is the integer 0 is skipped like an item
    whose id is null or absent: the run is the run of the same feed with
    that item's id replaced by null, or removed, or with the item left
    out; no delivery of id 0 is attempted, and 0 is in the id set after
    the run only if it was in it before. *)
Theorem zero_id_skipped cfg eom st clk tr status l1 p l2 :
  p_id p = IdInt 0 →
  http env = GetResponse status (Ok (l1 ++ p :: l2)) →
  let m := mkMachine cfg eom (mkManager (Some st)) clk tr in
  let run_on posts := run (set_http (GetResponse status (Ok posts)) env) m in
  run env m = run_on (l1 ++ with_id IdNull p :: l2)
  ∧ run env m = run_on (l1 ++ with_id IdAbsent p :: l2)
  ∧ run env m = run_on (l1 ++ l2)
  ∧ (∀ ok, EvDeliver 0 ok ∉ drop (length tr) (trace (snd (run env m))))
  ∧ (∀ st', state (state_manager (snd (run env m))) = Some st' →
            0 ∈ processed_post_ids st' → 0 ∈ processed_post_ids st).
Proof.
  intros Hp Hhttp m run_on.
  assert (Hfalsy : truthy_id (post_get_id p) = false)
    by (unfold post_get_id; by rewrite Hp).
  assert (Hsame : ∀ posts,
    filter_new (adjust_premium cfg eom) (mkManager (Some st)) posts
    = filter_new (adjust_premium cfg eom) (mkManager (Some st)) (l1 ++ l2) →
    run env m = run_on posts).
  { intros posts Hposts. subst m run_on.
    apply run_same; try reflexivity.
    - unfold fetch_time. by rewrite Hhttp.
    - rewrite Hhttp. simpl. destruct (status =? 200); [|done].
      by rewrite Hposts, filter_new_falsy. }
  split; [|split; [|split; [|split]]].
  - by apply Hsame, filter_new_falsy.
  - by apply Hsame, filter_new_falsy.
  - by apply Hsame.
  - intros ok Hin. subst m.
    destruct (connected cfg env) eqn:Hc.
    2: { rewrite (run_aborted env cfg eom _ clk tr Hc) in Hin. simpl in Hin.
         rewrite drop_all in Hin. by apply elem_of_nil in Hin. }
    destruct (fetched (http env)) as [posts|e] eqn:Hf.
    2: { rewrite (run_crashed env cfg eom st clk tr e Hc Hf) in Hin. simpl in Hin.
         rewrite drop_app_length in Hin. set_solver. }
    destruct (filter_new (adjust_premium cfg eom) (mkManager (Some st)) posts)
      as [|a rest] eqn:Hnew.
    { rewrite (run_idle env cfg eom st clk tr posts Hc Hf Hnew) in Hin. simpl in Hin.
      rewrite drop_app_length in Hin. set_solver. }
    destruct (run_processed env cfg eom st clk tr posts a rest Hc Hf Hnew)
      as (evs & d & st1 & Heq & Hev & _).
    rewrite Heq in Hin. simpl in Hin. rewrite drop_app_length in Hin.
    apply elem_of_cons in Hin as [?|Hin]; [done|].
    apply elem_of_app in Hin as [Hin|Hin]; [|set_solver].
    rewrite Forall_forall in Hev.
    destruct (Hev _ Hin) as (id & i & b & [= <- _] & _ & Hb & Hid).
    rewrite <- Hnew in Hb. apply filter_new_ids in Hb as (id' & Hid' & _ & Hnz & _).
    congruence.
  - intros st' Hst' H0. subst m.
    destruct (run_frame env cfg eom st clk tr)
      as (r & cfg' & st1 & clk' & evs & Heq & _ & Hsub & Hids & _).
    rewrite Heq in Hst'. simpl in Hst'. injection Hst' as ->.
    apply Hsub in H0. apply elem_of_union in H0 as [H0|H0]; [|done].
    apply elem_of_list_to_set in H0. by destruct (Hids 0 H0).
Qed.

End RunClaims.

(** * The claims on concrete runs *)

Lemma run_fetch_failure_witness :
  connected cfg_default (env_with (GetResponse 503 (Ok [])) (λ _, true)) = true
  ∧ run (env_with (GetResponse 503 (Ok [])) (λ _, true)) (machine_of st_one)
    = (Ok true,
       mkMachine cfg_default eom_default
         (mkManager (Some (mkState (epoch_isoformat 100) {[2]} 1 (epoch_isoformat 1005014) 0)))
         1005021
         [EvFetch 5007 100;
          EvSave (to_dict (mkState (epoch_isoformat 100) {[2]} 1 (epoch_isoformat 1005014) 0))
            true]).
Proof.
  split; [reflexivity|].
  refine (proj1 (run_fetch_failure
                   (env_with (GetResponse 503 (Ok [])) (λ _, true))
                   cfg_default eom_default st_one 5000 [] eq_refl) _).
  left. right. exists 503, (Ok []). split; [reflexivity|discriminate].
Defined.

(** C1, as the claim words it, fails: when the request raises
    [RequestException], and when the feed answers 503, the run returns
    [True] and [errors_count] stays at 0. *)
Lemma run_fetch_failure_counterexample :
  (let r := run (env_with (GetRaises RequestException) (λ _, true)) (machine_of st_one) in
   fst r = Ok true
   ∧ errors_count <$> state (state_manager (snd r)) = Some 0)
  ∧ (let r := run (env_with (GetResponse 503 (Ok [])) (λ _, true)) (machine_of st_one) in
     fst r = Ok true
     ∧ errors_count <$> state (state_manager (snd r)) = Some 0).
Proof. vm_compute. repeat split. Qed.

(** C2, as the claim words it, fails: the fetch is issued at clock reading
    5007, one article is delivered, and the watermark is set to 1005021,
    the reading after the delivery, not to 5007. *)
Lemma run_watermark_counterexample :
  let r := run (env_with (GetResponse 200 (Ok [post_of (IdInt 1)])) (λ _, true))
               (machine_of st_one) in
  trace (snd r) !! 0%nat = Some (EvFetch 5007 100)
  ∧ delivered (trace (snd r)) = [1]
  ∧ last_check_timestamp <$> state (state_manager (snd r)) = Some (isoformat 1005021)
  ∧ isoformat 1005021 ≠ isoformat 5007.
Proof. vm_compute. repeat split. discriminate. Qed.

Lemma run_watermark_witness :
  let r := run (env_with (GetResponse 200 (Ok [post_of (IdInt 1)])) (λ _, true))
               (machine_of st_one) in
  ∃ st', state (state_manager (snd r)) = Some st'
         ∧ last_check_timestamp st' = isoformat (clock (snd r) - 7).
Proof.
  intros r.
  destruct (run_watermark (env_with (GetResponse 200 (Ok [post_of (IdInt 1)])) (λ _, true))
              cfg_default eom_default st_one 5000 [])
    as (st' & evs & Hst & Htr & _ & Hset).
  exists st'. split; [exact Hst|].
  apply Hset. simpl in Htr. rewrite <- Htr. vm_compute. discriminate.
Defined.

(** C5, as the claim words it, fails: when the SMTP check fails the run
    returns [False] and its trace holds no save. *)
Lemma run_saves_once_counterexample :
  let r := run env_offline (machine_of st_one) in
  fst r = Ok false ∧ saves (trace (snd r)) = [] ∧ length (saves (trace (snd r))) ≠ 1%nat.
Proof. vm_compute. repeat split. discriminate. Qed.

Lemma run_all_deliveries_fail_witness :
  let env := env_with (GetResponse 200 (Ok [post_of (IdInt 7); post_of (IdInt 8)]))
               (λ _, false) in
  ∃ (m' : Machine) (st' : ScraperState),
    run env (mkMachine cfg_default eom_default (mkManager (Some st_one)) 5000 [])
    = (Ok true, m')
    ∧ state (state_manager m') = Some st'
    ∧ processed_post_ids st' = processed_post_ids st_one
    ∧ total_posts_processed st' = total_posts_processed st_one
    ∧ last_check_timestamp st' = last_check_timestamp st_one
    ∧ errors_count st' = errors_count st_one
    ∧ delivered (drop (length (@nil event)) (trace m')) = [].
Proof.
  intros env.
  apply (run_all_deliveries_fail env cfg_default eom_default st_one 5000 []
           [post_of (IdInt 7); post_of (IdInt 8)]);
    [reflexivity|reflexivity|intros i; reflexivity].
Defined.

(** The run of the instance above, evaluated: both deliveries are
    attempted and refused. *)
Example run_all_deliveries_fail_trace :
  delivered_attempts
    (trace (snd (run (env_with (GetResponse 200 (Ok [post_of (IdInt 7); post_of (IdInt 8)]))
                       (λ _, false))
                     (machine_of st_one))))
  = [(7, false); (8, false)].
Proof. vm_compute. reflexivity. Qed.


Lemma zero_id_skipped_witness :
  let posts := [post_of (IdInt 1); post_of (IdInt 0); post_of (IdInt 3)] in
  let env := env_with (GetResponse 200 (Ok posts)) (λ _, true) in
  let run_on posts := run (set_http (GetResponse 200 (Ok posts)) env) (machine_of st_one) in
  run env (machine_of st_one) = run_on [post_of (IdInt 1); post_of IdNull; post_of (IdInt 3)]
  ∧ run env (machine_of st_one) = run_on [post_of (IdInt 1); post_of IdAbsent; post_of (IdInt 3)]
  ∧ run env (machine_of st_one) = run_on [post_of (IdInt 1); post_of (IdInt 3)].
Proof.
  intros posts env run_on.
  pose proof (zero_id_skipped env cfg_default eom_default st_one 5000 [] 200
                [post_of (IdInt 1)] (post_of (IdInt 0)) [post_of (IdInt 3)]
                eq_refl eq_refl) as (H1 & H2 & H3 & _).
  split; [exact H1|split; [exact H2|exact H3]].
Defined.

(** The run of the instance above, evaluated: ids 1 and 3 are delivered
    and committed, id 0 is not. *)
Example zero_id_skipped_run :
  let r := run (env_with (GetResponse 200
                            (Ok [post_of (IdInt 1); post_of (IdInt 0); post_of (IdInt 3)]))
                         (λ _, true))
               (machine_of st_one) in
  delivered_attempts (trace (snd r)) = [(1, true); (3, true)]
  ∧ processed_post_ids <$> state (state_manager (snd r)) = Some {[1; 2; 3]}.
Proof. vm_compute. repeat split. Qed.

(** * Sequences of runs *)

Section RunSequences.
Context `{IsoCodec}.










End RunSequences.


(** The watermarks of the instance above, evaluated. *)
Example runs_watermarks :
  watermarks_after <$>
    runs cfg_default eom_default
      [(0%N, env_with (GetResponse 200 (Ok [])) (λ _, true));
       (60000000%N, env_with (GetResponse 200 (Ok [post_of (IdInt 1)])) (λ _, true));
       (0%N, env_with (GetResponse 200 (Ok [])) (λ _, true))]
      (Some (Json (to_dict st_one))) 5000
  = Some [Some 100; Some 62005042; Some 62005042].
Proof. vm_compute. reflexivity. Qed.



(** * Further properties of the state store *)

Section StateStoreMore.
Context `{IsoCodec}.

(** What [save_state] writes, [load_state] reads back: the document of
    the save event makes [load_state] return the state that was saved,
    whatever the clock and the manager it is called on. *)
Theorem save_state_load_state (env : Env) cfg eom st clk tr :
  ∃ doc,
    trace (snd (save_state env (mkMachine cfg eom (mkManager (Some st)) clk tr)))
    = tr ++ [EvSave doc (disk_ok env)]
    ∧ ∀ now sm, load_state (Some (Json doc)) now sm = Some (Ok st, mkManager (Some st)).
Proof.
  exists (to_dict st). rewrite save_state_eq. split; [done|].
  intros now sm. unfold load_state. by rewrite from_dict_to_dict.
Qed.

(** Membership after an insertion: on a loaded state, an id is processed
    after [mark_post_processed id] exactly when it is [id] or was
    processed before. Before [load_state] the manager holds no state:
    marking does nothing and no id is processed. *)
Theorem is_post_processed_mark (st : ScraperState) (id id' : Z) :
  is_post_processed id' (mark_post_processed id (mkManager (Some st)))
  = bool_decide (id' = id) || is_post_processed id' (mkManager (Some st))
  ∧ mark_post_processed id (mkManager None) = mkManager None
  ∧ is_post_processed id' (mark_post_processed id (mkManager None)) = false.
Proof.
  split; [|done].
  rewrite mark_post_processed_Some. unfold is_post_processed, marked; simpl.
  destruct (decide (id ∉ processed_post_ids st)) as [Hn|Hin]; simpl.
  - destruct (decide (id' = id)) as [->|Hne].
    + rewrite bool_decide_eq_true_2 by set_solver. by rewrite bool_decide_eq_true_2.
    + rewrite (bool_decide_eq_false_2 (id' = id)) by done. simpl.
      apply bool_decide_ext. set_solver.
  - apply dec_stable in Hin.
    destruct (decide (id' = id)) as [->|Hne].
    + rewrite !bool_decide_eq_true_2 by done. done.
    + by rewrite (bool_decide_eq_false_2 (id' = id)) by done.
Qed.

(** The watermark written by [update_last_check] is the one
    [get_last_check_datetime] reads, at any later clock reading; before
    [load_state] the update is lost and the reader falls back to one hour
    before the clock. *)
Theorem get_last_check_datetime_update (st : ScraperState) (t now : datetime) :
  get_last_check_datetime now (update_last_check t (mkManager (Some st))) = t
  ∧ get_last_check_datetime now (update_last_check t (mkManager None)) = now - one_hour.
Proof.
  split; [|done].
  unfold get_last_check_datetime, update_last_check; simpl.
  destruct (String.eqb (isoformat t) "") eqn:He.
  - apply String.eqb_eq in He. by destruct (isoformat_nonempty t).
  - simpl. rewrite replace_Z_no_Z by apply isoformat_no_Z.
    by rewrite fromisoformat_isoformat.
Qed.

(** Every batch of marks counts distinct new ids, not calls: after
    marking the ids of a list in turn, the counter has grown by the number
    of ids the set gained, and the set is the old one plus the ids of the
    list. *)
Theorem mark_all_counts_new_ids (ids : list Z) (st : ScraperState) :
  ∃ st',
    mark_all ids (mkManager (Some st)) = mkManager (Some st')
    ∧ processed_post_ids st' = list_to_set ids ∪ processed_post_ids st
    ∧ total_posts_processed st'
      = total_posts_processed st
        + Z.of_nat (size (processed_post_ids st')) - Z.of_nat (size (processed_post_ids st)).
Proof.
  exists (committed ids st). rewrite mark_all_Some. split; [done|].
  destruct (committed_fields ids st) as (_ & _ & _ & Hids & _). split; [done|].
  clear Hids. revert st. induction ids as [|id ids IH]; intros st.
  - unfold committed; simpl. lia.
  - change (committed (id :: ids) st) with (committed ids (marked id st)).
    rewrite IH. unfold marked.
    destruct (decide (id ∉ processed_post_ids st)) as [Hn|Hin]; simpl; [|lia].
    rewrite size_union by set_solver. rewrite size_singleton. lia.
Qed.

End StateStoreMore.

Section TrimMore.

Lemma slice_to_take (k : Z) (l : list Z) : ∃ n, slice_to k l = take n l.
Proof. unfold slice_to. destruct (decide (0 ≤ k)); by eexists. Qed.

(** Whatever the ceiling, negative ones included, trimming rewrites the
    id set only, adds no id, and discards only ids that are lower than
    every id it keeps. *)
Theorem cleanup_old_processed_ids_keeps_highest (st : ScraperState) (C : Z) :
  ∃ kept : gset Z,
    cleanup_old_processed_ids C (mkManager (Some st))
    = mkManager (Some (with_ids st kept (total_posts_processed st)))
    ∧ kept ⊆ processed_post_ids st
    ∧ ∀ x y, x ∈ kept → y ∈ processed_post_ids st → y ∉ kept → y < x.
Proof.
  unfold cleanup_old_processed_ids; simpl.
  destruct (decide (3 * C < 2 * Z.of_nat (size (processed_post_ids st)))).
  - destruct (slice_to_take C (sorted_desc (processed_post_ids st))) as (n & Hn).
    eexists. split; [done|]. rewrite Hn. split.
    + intros x Hx. apply elem_of_list_to_set in Hx. apply elem_of_sorted_desc.
      eapply subseteq_take, Hx.
    + intros x y Hx Hy Hny.
      rewrite elem_of_list_to_set in Hx. rewrite elem_of_list_to_set in Hny.
      eapply take_sorted_desc_top; eauto using sorted_desc_sorted, sorted_desc_NoDup.
      by apply elem_of_sorted_desc.
  - exists (processed_post_ids st). rewrite with_ids_same. split; [done|].
    split; [done|]. intros x y Hx Hy Hny. contradiction.
Qed.

(** For a ceiling [C ≥ 0], trimming twice is trimming once. *)
Theorem cleanup_old_processed_ids_idempotent (st : ScraperState) (C : Z) :
  0 ≤ C →
  cleanup_old_processed_ids C (cleanup_old_processed_ids C (mkManager (Some st)))
  = cleanup_old_processed_ids C (mkManager (Some st)).
Proof.
  intros HC.
  unfold cleanup_old_processed_ids at 2; simpl.
  destruct (decide (3 * C < 2 * Z.of_nat (size (processed_post_ids st)))) as [Hbig|Hsmall].
  - unfold cleanup_old_processed_ids; simpl.
    assert (Hk : (Z.to_nat C ≤ size (processed_post_ids st))%nat) by lia.
    destruct (highest_take _ _ Hk) as (_ & Hsz & _).
    assert (Hslice : ∀ l, slice_to C l = take (Z.to_nat C) l)
      by (intros l; unfold slice_to; by rewrite decide_True).
    rewrite (Hslice (sorted_desc (processed_post_ids st))), Hsz.
    rewrite decide_False by lia. by rewrite decide_True.
  - unfold cleanup_old_processed_ids; simpl. by rewrite !decide_False.
Qed.

Lemma cleanup_old_processed_ids_idempotent_witness :
  0 ≤ 2 ∧
  cleanup_old_processed_ids 2 (cleanup_old_processed_ids 2 (mkManager (Some st_four)))
  = cleanup_old_processed_ids 2 (mkManager (Some st_four)).
Proof.
  split; [lia|]. apply (cleanup_old_processed_ids_idempotent st_four 2). lia.
Defined.

(** A negative ceiling is not idempotent: each call drops the lowest id
    that is left. *)
Example cleanup_negative_ceiling :
  (λ sm, processed_post_ids <$> state sm)
    <$> [cleanup_old_processed_ids (-1) (mkManager (Some st_four));
         cleanup_old_processed_ids (-1)
           (cleanup_old_processed_ids (-1) (mkManager (Some st_four)))]
  = [Some {[2; 3; 4]}; Some {[3; 4]}].
Proof. vm_compute. reflexivity. Qed.

End TrimMore.

(** * Further properties of one run *)

Section RunMore.
Context `{IsoCodec}.
Variable env : Env.

Lemma filter_new_filter cfg sm posts :
  filter_new cfg sm posts = omap article_of (List.filter (candidate cfg sm) posts).
Proof.
  induction posts as [|p posts IH]; [done|]. simpl. unfold candidate at 1.
  destruct (post_get_id p) as [id|] eqn:Hid; simpl; [|done].
  destruct (id =? 0); simpl; [done|].
  destruct (is_post_processed id sm); simpl; [done|].
  destruct (_should_process_article cfg (extract_post_metadata p)); simpl; [|done].
  unfold article_of at 1. rewrite Hid. by rewrite IH.
Qed.

Lemma candidate_article cfg sm p :
  candidate cfg sm p = true →
  ∃ id, post_get_id p = Some id
        ∧ article_of p = Some (mkArticle id (extract_post_metadata p)).
Proof.
  unfold candidate, article_of. destruct (post_get_id p) as [id|]; [|done].
  intros _. by exists id.
Qed.

Lemma candidate_filter_new cfg sm posts p :
  p ∈ posts → candidate cfg sm p = true →
  ∃ a, a ∈ filter_new cfg sm posts ∧ post_get_id p = Some (a_id a).
Proof.
  intros Hp Hcand. destruct (candidate_article cfg sm p Hcand) as (id & Hid & Ha).
  exists (mkArticle id (extract_post_metadata p)). split; [|done].
  rewrite filter_new_filter. apply list_elem_of_omap. exists p. split; [|done].
  apply list_elem_of_In, filter_In. split; [by apply list_elem_of_In|done].
Qed.

Lemma filter_twice {A} (f : A → bool) (l : list A) :
  List.filter f (List.filter f l) = List.filter f l.
Proof.
  induction l as [|x l IH]; [done|]. simpl.
  destruct (f x) eqn:Hx; simpl; [by rewrite Hx, IH|apply IH].
Qed.

Lemma filter_new_candidate cfg sm posts a :
  a ∈ filter_new cfg sm posts →
  ∃ p, p ∈ posts ∧ candidate cfg sm p = true ∧ post_get_id p = Some (a_id a).
Proof.
  rewrite filter_new_filter. intros (p & Hp & Ha)%list_elem_of_omap.
  apply list_elem_of_In, filter_In in Hp as [Hp Hc].
  exists p. split; [by apply list_elem_of_In|]. split; [done|].
  unfold article_of in Ha. destruct (post_get_id p); [|done]. by injection Ha as <-.
Qed.

Lemma fetched_Ok_cons h p posts :
  fetched h = Ok (p :: posts) → h = GetResponse 200 (Ok (p :: posts)).
Proof.
  destruct h as [e|status body]; simpl.
  - by destruct e.
  - destruct (status =? 200) eqn:Hs; [|done]. apply Z.eqb_eq in Hs as ->.
    destruct body as [l|e]; [by intros [= ->]|by destruct e].
Qed.

Lemma fetched_escapes h :
  match fetched h with
  | Ok _ => escapes h = false
  | Raise _ => escapes h = true
  end.
Proof.
  destruct h as [e|status body]; simpl.
  - by destruct e.
  - destruct (status =? 200); [|by destruct body as [|[]]].
    destruct body as [l|e]; [done|by destruct e].
Qed.

Lemma adjust_premium_open cfg eom :
  process_open_content (adjust_premium cfg eom) = process_open_content cfg.
Proof.
  unfold adjust_premium.
  destruct (process_premium_content cfg); [|done]. by destruct (negb (authenticate eom)).
Qed.

(** The deliveries a run attempts are deliveries of candidates of its
    feed. *)
Lemma run_attempts cfg eom st clk tr id ok :
  EvDeliver id ok
    ∈ drop (length tr) (trace (snd (run env (mkMachine cfg eom (mkManager (Some st)) clk tr)))) →
  ∃ posts p,
    http env = GetResponse 200 (Ok posts)
    ∧ p ∈ posts
    ∧ candidate (adjust_premium cfg eom) (mkManager (Some st)) p = true
    ∧ post_get_id p = Some id.
Proof.
  intros Hin.
  destruct (connected cfg env) eqn:Hc.
  2: { rewrite (run_aborted env cfg eom _ clk tr Hc) in Hin. simpl in Hin.
       rewrite drop_all in Hin. by apply elem_of_nil in Hin. }
  destruct (fetched (http env)) as [posts|e] eqn:Hf.
  2: { rewrite (run_crashed env cfg eom st clk tr e Hc Hf) in Hin. simpl in Hin.
       rewrite drop_app_length in Hin. set_solver. }
  destruct (filter_new (adjust_premium cfg eom) (mkManager (Some st)) posts)
    as [|a rest] eqn:Hnew.
  { rewrite (run_idle env cfg eom st clk tr posts Hc Hf Hnew) in Hin. simpl in Hin.
    rewrite drop_app_length in Hin. set_solver. }
  destruct (run_processed env cfg eom st clk tr posts a rest Hc Hf Hnew)
    as (evs & d & st1 & Heq & Hev & _).
  rewrite Heq in Hin. simpl in Hin. rewrite drop_app_length in Hin.
  apply elem_of_cons in Hin as [?|Hin]; [done|].
  apply elem_of_app in Hin as [Hin|Hin]; [|set_solver].
  rewrite Forall_forall in Hev.
  destruct (Hev _ Hin) as (id' & i & b & [= <- _] & _ & Hb & Hid).
  rewrite <- Hnew in Hb. apply filter_new_candidate in Hb as (p & Hp & Hcand & Hpid).
  rewrite Hid in Hpid. exists posts, p. split; [|done].
  destruct posts as [|q posts]; [by apply elem_of_nil in Hp|].
  by apply fetched_Ok_cons.
Qed.

(** Every delivery a run attempts is the delivery of an item of the feed
    whose id is an integer other than 0 and was not in the processed set
    when the run started, and whose content is open: [authenticate]
    answers [False], so premium items are never delivered, whatever the
    configuration asks for. *)
Theorem run_delivers_fresh_open_items cfg eom st clk tr id ok :
  EvDeliver id ok
    ∈ drop (length tr) (trace (snd (run env (mkMachine cfg eom (mkManager (Some st)) clk tr)))) →
  id ≠ 0
  ∧ (id ∉ processed_post_ids st)
  ∧ process_open_content cfg = true
  ∧ ∃ posts p,
      http env = GetResponse 200 (Ok posts)
      ∧ p ∈ posts ∧ p_id p = IdInt id
      ∧ classify_post_access p = Open.
Proof.
  intros Hin. destruct (run_attempts cfg eom st clk tr id ok Hin)
    as (posts & p & Hhttp & Hp & Hcand & Hid).
  unfold candidate in Hcand. rewrite Hid in Hcand.
  apply andb_prop in Hcand as [Hcand Hpol]. apply andb_prop in Hcand as [Hnz Hnp].
  unfold _should_process_article in Hpol. simpl in Hpol.
  rewrite adjust_premium_off, adjust_premium_open in Hpol.
  destruct (classify_post_access p) eqn:Hclass; [|done].
  split; [intros ->; done|]. split.
  { simpl in Hnp. apply negb_true_iff, bool_decide_eq_false in Hnp. done. }
  split; [done|]. exists posts, p. repeat split; try done.
  unfold post_get_id in Hid. destruct (p_id p); congruence.
Qed.

(** A run reads its feed through the candidate tests only: the posts that
    fail one of them (no usable id, already processed, content type not
    let through) can be left out of the feed without changing anything
    of the run: result, state, clock or events. *)
Theorem run_ignores_skipped_posts cfg eom st clk tr status posts :
  http env = GetResponse status (Ok posts) →
  let m := mkMachine cfg eom (mkManager (Some st)) clk tr in
  let kept := List.filter (candidate (adjust_premium cfg eom) (mkManager (Some st))) posts in
  run env m = run (set_http (GetResponse status (Ok kept)) env) m.
Proof.
  intros Hhttp m kept. subst m kept.
  apply run_same; try reflexivity.
  - unfold fetch_time. by rewrite Hhttp.
  - rewrite Hhttp. simpl. destruct (status =? 200); [|done].
    rewrite !filter_new_filter. by rewrite filter_twice.
Qed.

(** [run] never raises. It returns [True] unless the SMTP check fails or
    an exception leaves the fetch; [errors_count] grows by one in the
    second case and is untouched otherwise; [total_posts_processed] never
    decreases; and a run that returns [False] leaves the id set, the
    watermark and the last successful run as they were. *)
Theorem run_result_and_counters cfg eom st clk tr :
  let m := mkMachine cfg eom (mkManager (Some st)) clk tr in
  ∃ (r : bool) (st' : ScraperState),
    fst (run env m) = Ok r
    ∧ state (state_manager (snd (run env m))) = Some st'
    ∧ r = connected cfg env && negb (escapes (http env))
    ∧ errors_count st'
      = errors_count st + (if connected cfg env && escapes (http env) then 1 else 0)
    ∧ total_posts_processed st ≤ total_posts_processed st'
    ∧ (r = false →
       processed_post_ids st' = processed_post_ids st
       ∧ last_check_timestamp st' = last_check_timestamp st
       ∧ last_successful_run st' = last_successful_run st).
Proof.
  intros m. subst m. pose proof (fetched_escapes (http env)) as Hesc.
  destruct (connected cfg env) eqn:Hc.
  2: { rewrite (run_aborted env cfg eom _ clk tr Hc). exists false, st. simpl.
       split; [done|]. split; [done|]. split; [done|]. split; [lia|]. split; [lia|done]. }
  destruct (fetched (http env)) as [posts|e] eqn:Hf.
  2: { rewrite (run_crashed env cfg eom st clk tr e Hc Hf). eexists false, _. simpl.
       rewrite Hesc. split; [done|]. split; [done|]. split; [done|]. simpl.
       split; [lia|]. split; [lia|done]. }
  destruct (filter_new (adjust_premium cfg eom) (mkManager (Some st)) posts)
    as [|a rest] eqn:Hnew.
  { rewrite (run_idle env cfg eom st clk tr posts Hc Hf Hnew). eexists true, _. simpl.
    rewrite Hesc. split; [done|]. split; [done|]. split; [done|]. simpl.
    split; [lia|]. split; [lia|done]. }
  destruct (run_processed env cfg eom st clk tr posts a rest Hc Hf Hnew)
    as (evs & d & st' & -> & Hev & Hst').
  exists true, st'. simpl. rewrite Hesc. simpl.
  split; [done|]. split; [done|]. split; [done|].
  destruct (committed_fields (delivered evs) st) as (_ & _ & C3 & _ & C5).
  destruct (delivered evs) as [|id ids].
  - injection Hst' as ->. split; [lia|]. split; [lia|done].
  - apply cleanup_fields in Hst' as (_ & _ & He & Ht & _).
    change (errors_count st' = errors_count (committed (id :: ids) st)) in He.
    change (total_posts_processed st'
            = total_posts_processed (committed (id :: ids) st)) in Ht.
    rewrite He, Ht, C3. split; [lia|]. split; [lia|done].
Qed.

End RunMore.

Lemma run_delivers_fresh_open_items_witness :
  let posts := [post_of (IdInt 1); post_of (IdInt 2); post_of (IdInt 3)] in
  let env := env_with (GetResponse 200 (Ok posts)) (λ _, true) in
  3 ≠ 0 ∧ (3 ∉ processed_post_ids st_one) ∧ process_open_content cfg_default = true
  ∧ ∃ posts' p,
      http env = GetResponse 200 (Ok posts')
      ∧ p ∈ posts' ∧ p_id p = IdInt 3 ∧ classify_post_access p = Open.
Proof.
  intros posts env.
  apply (run_delivers_fresh_open_items env cfg_default eom_default st_one 5000 [] 3 true).
  vm_compute. apply list_elem_of_In. right. right. left. reflexivity.
Defined.

Lemma run_ignores_skipped_posts_witness :
  let posts := [post_of (IdInt 1); post_of (IdInt 2); post_of IdNull; post_of (IdInt 3)] in
  let env := env_with (GetResponse 200 (Ok posts)) (λ _, true) in
  run env (machine_of st_one)
  = run (set_http (GetResponse 200 (Ok [post_of (IdInt 1); post_of (IdInt 3)])) env)
        (machine_of st_one).
Proof.
  intros posts env.
  apply (run_ignores_skipped_posts env cfg_default eom_default st_one 5000 [] 200 posts).
  reflexivity.
Defined.

(** * The delivery loop, exactly *)

Section LoopMore.
Context `{IsoCodec}.
Variable env : Env.

Lemma delivered_attempt_events l :
  delivered (attempt_events l) = fst <$> List.filter snd l.
Proof.
  induction l as [|[id [|]] l IH]; [done| |];
    unfold attempt_events, delivered in *; simpl; [f_equal|]; exact IH.
Qed.

Lemma delivered_attempts_attempt_events l :
  delivered_attempts (attempt_events l) = l.
Proof.
  induction l as [|[id ok] l IH]; [done|].
  unfold attempt_events, delivered_attempts in *; simpl; f_equal; exact IH.
Qed.

(** One iteration, exception caught, in closed form. *)
Lemma process_one_exact n i a cfg eom sm clk tr :
  ∃ d : N,
    try_catch (process_one env n i a) (λ _, ret false) (mkMachine cfg eom sm clk tr)
    = (Ok (match attempt_of env cfg i a with Some (_, true) => true | _ => false end),
       mkMachine cfg eom
         (match attempt_of env cfg i a with
          | Some (id, true) => mark_post_processed id sm
          | _ => sm
          end)
         (clk + Z.of_N d)
         (tr ++ match attempt_of env cfg i a with
                | Some (id, ok) => [EvDeliver id ok]
                | None => []
                end)).
Proof.
  unfold process_one, attempt_of, send_article_email, try_catch, bind, get_machine,
    elapse, emit, raise, ret, modify_manager, set_manager; simpl.
  destruct (transform_ok env i); simpl.
  2: { exists (latency env (Item i)). by rewrite app_nil_r. }
  exists (latency env (Item i) + if (i <? n)%nat then two_seconds else 0)%N.
  rewrite N2Z.inj_add, Z.add_assoc.
  destruct (dry_run cfg); simpl;
    [|destruct (smtp_accepts env i); simpl];
    destruct (i <? n)%nat; simpl; by rewrite ?Z.add_0_r.
Qed.

(** The loop in closed form: its events are the attempts, in order; it
    returns the count it was given plus the number of attempts that
    succeeded, and marks their ids, in order. *)
Lemma process_loop_exact n articles : ∀ i processed_count cfg eom sm clk tr,
  let evs := attempt_events (attempts_from env cfg i articles) in
  ∃ d : N,
    process_loop env n i articles processed_count (mkMachine cfg eom sm clk tr)
    = (Ok (processed_count + Z.of_nat (length (delivered evs))),
       mkMachine cfg eom (mark_all (delivered evs) sm) (clk + Z.of_N d) (tr ++ evs)).
Proof.
  induction articles as [|a rest IH]; intros i processed_count cfg eom sm clk tr evs.
  - exists 0%N. subst evs. simpl. by rewrite app_nil_r, !Z.add_0_r.
  - destruct (process_one_exact n i a cfg eom sm clk tr) as (d1 & Heq1).
    cbn [process_loop]. unfold bind at 1. rewrite Heq1. subst evs. cbn [attempts_from].
    destruct (attempt_of env cfg i a) as [[id [|]]|].
    + destruct (IH (S i) (processed_count + 1) cfg eom (mark_post_processed id sm)
                  (clk + Z.of_N d1) (tr ++ [EvDeliver id true])) as (d2 & Heq2).
      exists (d1 + d2)%N. rewrite Heq2. simpl.
      rewrite <- app_assoc, N2Z.inj_add, Z.add_assoc. do 2 f_equal. lia.
    + destruct (IH (S i) processed_count cfg eom sm
                  (clk + Z.of_N d1) (tr ++ [EvDeliver id false])) as (d2 & Heq2).
      exists (d1 + d2)%N. rewrite Heq2. simpl.
      by rewrite <- app_assoc, N2Z.inj_add, Z.add_assoc.
    + destruct (IH (S i) processed_count cfg eom sm (clk + Z.of_N d1) (tr ++ []))
        as (d2 & Heq2).
      exists (d1 + d2)%N. rewrite Heq2.
      by rewrite app_nil_r, N2Z.inj_add, Z.add_assoc.
Qed.

Lemma attempts_from_sublist cfg articles : ∀ i,
  (fst <$> attempts_from env cfg i articles) `sublist_of` (a_id <$> articles).
Proof.
  induction articles as [|a rest IH]; intros i; [done|].
  simpl. unfold attempt_of.
  destruct (transform_ok env i); simpl.
  - apply sublist_skip, IH.
  - apply sublist_cons, IH.
Qed.

(** On articles whose id is an integer, the only ones
    [_get_new_articles] hands over, [_process_articles] never raises,
    whatever the transformations and the channel do. It attempts one
    delivery for each article whose transformation returned, in the order
    of the list, and none for an article whose transformation raised; it
    returns the number of attempts that succeeded and has marked their
    ids, and only theirs, as processed. *)
Theorem _process_articles_attempts articles cfg eom sm clk tr :
  let m := mkMachine cfg eom sm clk tr in
  let attempts := attempts_from env cfg 1 articles in
  ∃ clk',
    _process_articles env articles m
    = (Ok (Z.of_nat (length (List.filter snd attempts))),
       mkMachine cfg eom (mark_all (fst <$> List.filter snd attempts) sm) clk'
         (tr ++ attempt_events attempts))
    ∧ clk ≤ clk'
    ∧ (fst <$> attempts) `sublist_of` (a_id <$> articles).
Proof.
  intros m attempts. subst m attempts.
  destruct (process_loop_exact (length articles) articles 1%nat 0 cfg eom sm clk tr)
    as (d & Heq).
  exists (clk + Z.of_N d). unfold _process_articles. rewrite Heq.
  rewrite delivered_attempt_events, length_fmap. split; [done|]. split; [lia|].
  apply attempts_from_sublist.
Qed.

End LoopMore.

(** * Replaying a feed *)

Section Replay.
Context `{IsoCodec}.

(** The path of [run] with new articles, with the events of the loop
    spelled out. *)
Lemma run_processed_exact env cfg eom st clk tr posts a rest :
  connected cfg env = true →
  fetched (http env) = Ok posts →
  filter_new (adjust_premium cfg eom) (mkManager (Some st)) posts = a :: rest →
  let cfg1 := adjust_premium cfg eom in
  let clk1 := clk + smtp_time cfg env in
  let evs := attempt_events (attempts_from env cfg1 1 (a :: rest)) in
  ∃ (t : datetime) (st' : ScraperState),
    run env (mkMachine cfg eom (mkManager (Some st)) clk tr)
    = (Ok true,
       mkMachine cfg1 eom (mkManager (Some st')) (t + Z.of_N (latency env DiskWrite))
         (tr ++ [EvFetch clk1 (get_last_check_datetime clk1 (mkManager (Some st)))]
             ++ evs ++ [EvSave (to_dict st') (disk_ok env)]))
    ∧ mkManager (Some st')
      = match delivered evs with
        | [] => mkManager (Some st)
        | _ :: _ =>
            cleanup_old_processed_ids 1000
              (mkManager (Some (stamped t (committed (delivered evs) st))))
        end.
Proof.
  intros Hc Hf Hnew cfg1 clk1 evs. subst cfg1 clk1 evs.
  set (cfg1 := adjust_premium cfg eom) in *.
  set (clk1 := clk + smtp_time cfg env) in *.
  set (clk2 := clk1 + Z.of_N (fetch_time cfg1 env)) in *.
  set (evs := attempt_events (attempts_from env cfg1 1 (a :: rest))).
  destruct (process_loop_exact env (length (a :: rest)) (a :: rest) 1%nat 0 cfg1 eom
              (mkManager (Some st)) clk2
              (tr ++ [EvFetch clk1 (get_last_check_datetime clk1 (mkManager (Some st)))]))
    as (d & Heq).
  fold evs in Heq. rewrite mark_all_Some in Heq.
  assert (Hrun : ∀ st',
    mkManager (Some st')
    = match delivered evs with
      | [] => mkManager (Some st)
      | _ :: _ =>
          cleanup_old_processed_ids 1000
            (mkManager (Some (stamped (clk2 + Z.of_N d) (committed (delivered evs) st))))
      end →
    run env (mkMachine cfg eom (mkManager (Some st)) clk tr)
    = (Ok true,
       mkMachine cfg1 eom (mkManager (Some st'))
         (clk2 + Z.of_N d + Z.of_N (latency env DiskWrite))
         (tr ++ [EvFetch clk1 (get_last_check_datetime clk1 (mkManager (Some st)))]
             ++ evs ++ [EvSave (to_dict st') (disk_ok env)]))).
  { intros st' Hst'. unfold run, try_catch.
    rewrite run_body_prefix, Hc. unfold bind at 1.
    rewrite _get_new_articles_eq, Hf. fold cfg1 clk1 clk2. rewrite Hnew.
    unfold bind at 1. unfold _process_articles. rewrite Heq.
    destruct (delivered evs) as [|id ids] eqn:Hd.
    - change (committed [] st) with st. injection Hst' as ->.
      change (0 <? 0 + Z.of_nat (length (@nil Z))) with false.
      unfold bind, ret. rewrite save_state_eq. by rewrite <- !app_assoc.
    - assert (Hpos : (0 <? 0 + Z.of_nat (length (id :: ids))) = true)
        by (apply Z.ltb_lt; simpl; lia).
      rewrite Hpos.
      unfold now, bind, get_machine, modify_manager, set_manager, ret.
      cbn [state state_manager app_config eom_config clock trace].
      change (mark_successful_run (clk2 + Z.of_N d)
                (update_last_check (clk2 + Z.of_N d)
                   (mkManager (Some (committed (id :: ids) st)))))
        with (mkManager (Some (stamped (clk2 + Z.of_N d) (committed (id :: ids) st)))).
      rewrite <- Hst'. rewrite save_state_eq. by rewrite <- !app_assoc. }
  destruct (delivered evs) as [|id ids] eqn:Hd.
  - exists (clk2 + Z.of_N d), st. split; [by apply Hrun|done].
  - destruct (cleanup_old_processed_ids_Some
                (stamped (clk2 + Z.of_N d) (committed (id :: ids) st)) 1000)
      as (kept & Hk).
    eexists (clk2 + Z.of_N d), _. split; [apply Hrun; by rewrite Hk|by rewrite Hk].
Qed.

Lemma length_omap_le {A B} (f : A → option B) (l : list A) :
  (length (omap f l) ≤ length l)%nat.
Proof.
  induction l as [|x l IH]; [done|].
  change (omap f (x :: l)) with (match f x with
                                 | Some y => y :: omap f l
                                 | None => omap f l
                                 end).
  destruct (f x); simpl; lia.
Qed.

Lemma size_list_to_set_union (l : list Z) (s : gset Z) :
  (size (list_to_set l ∪ s) ≤ length l + size s)%nat.
Proof.
  induction l as [|x l IH]; simpl.
  - rewrite union_empty_l_L. lia.
  - rewrite <- union_assoc_L, size_union_alt, size_singleton.
    pose proof (subseteq_size ((list_to_set l ∪ s) ∖ {[x]}) (list_to_set l ∪ s)) as Hle.
    specialize (Hle ltac:(set_solver)). lia.
Qed.

(** A post that is a candidate against a larger id set is a candidate
    against the smaller one, and its id is not in the larger one. *)
Lemma candidate_larger cfg st st' p :
  processed_post_ids st ⊆ processed_post_ids st' →
  candidate cfg (mkManager (Some st')) p = true →
  candidate cfg (mkManager (Some st)) p = true
  ∧ ∃ id, post_get_id p = Some id ∧ id ∉ processed_post_ids st'.
Proof.
  intros Hsub. unfold candidate. destruct (post_get_id p) as [id|]; [|done].
  intros Hc. apply andb_prop in Hc as [Hc Hpol]. apply andb_prop in Hc as [Hnz Hnp].
  simpl in Hnp. apply negb_true_iff, bool_decide_eq_false in Hnp.
  split; [|by eauto].
  rewrite Hnz, Hpol. unfold is_post_processed; simpl.
  rewrite bool_decide_eq_false_2; [done|]. set_solver.
Qed.

Lemma no_deliver_attempts (evs : list event) :
  (∀ id ok, EvDeliver id ok ∉ evs) → delivered_attempts evs = [].
Proof.
  induction evs as [|e evs IH]; intros Hno; [done|].
  destruct e as [issued since|id ok|doc written].
  - apply IH. intros id ok Hin. apply (Hno id ok). by right.
  - destruct (Hno id ok). by left.
  - apply IH. intros id ok Hin. apply (Hno id ok). by right.
Qed.

(** When every delivery succeeds, every article is delivered. *)
Lemma attempts_from_all env cfg articles a :
  (∀ i, transform_ok env i = true ∧ dry_run cfg || smtp_accepts env i = true) →
  a ∈ articles →
  ∀ i, a_id a ∈ delivered (attempt_events (attempts_from env cfg i articles)).
Proof.
  intros Hall Hin.
  induction articles as [|b rest IH]; intros i; [by apply elem_of_nil in Hin|].
  rewrite delivered_attempt_events. cbn [attempts_from]. unfold attempt_of.
  destruct (Hall i) as [Ht Hs].
  apply elem_of_cons in Hin as [<-|Hin].
  - rewrite Ht, Hs. simpl. by left.
  - specialize (IH Hin (S i)). rewrite delivered_attempt_events in IH.
    rewrite Ht, Hs. simpl. by right.
Qed.

(** Replaying a feed delivers nothing. Take a run whose SMTP check
    passes, whose feed answers 200 and whose deliveries all succeed, and
    an id set small enough not to be trimmed (the ids it holds plus the
    posts of the feed do not exceed 1500). Any later run on the state
    that run left, given the same posts, attempts no delivery. *)
Theorem run_replay_delivers_nothing env cfg eom st clk tr posts :
  connected cfg env = true →
  http env = GetResponse 200 (Ok posts) →
  (∀ i, transform_ok env i = true ∧ dry_run cfg || smtp_accepts env i = true) →
  2 * (Z.of_nat (size (processed_post_ids st)) + Z.of_nat (length posts)) ≤ 3000 →
  ∃ st1,
    state (state_manager (snd (run env (mkMachine cfg eom (mkManager (Some st)) clk tr))))
    = Some st1
    ∧ ∀ env2 clk2 tr2,
        http env2 = GetResponse 200 (Ok posts) →
        delivered_attempts
          (drop (length tr2)
             (trace (snd (run env2 (mkMachine cfg eom (mkManager (Some st1)) clk2 tr2)))))
        = [].
Proof.
  intros Hc Hhttp Hall Hsmall.
  assert (Hf : fetched (http env) = Ok posts) by (by rewrite Hhttp).
  set (cfg1 := adjust_premium cfg eom).
  (* every post fails the candidate tests against the state the run leaves *)
  assert (Hgoal : ∀ st1,
    (∀ p, p ∈ posts → candidate cfg1 (mkManager (Some st1)) p = false) →
    ∀ env2 clk2 tr2,
      http env2 = GetResponse 200 (Ok posts) →
      delivered_attempts
        (drop (length tr2)
           (trace (snd (run env2 (mkMachine cfg eom (mkManager (Some st1)) clk2 tr2)))))
      = []).
  { intros st1 Hnone env2 clk2 tr2 Hhttp2. apply no_deliver_attempts. intros id ok Hin.
    destruct (run_attempts env2 cfg eom st1 clk2 tr2 id ok Hin)
      as (posts' & p & Hh & Hp & Hcand & _).
    rewrite Hhttp2 in Hh. injection Hh as <-.
    fold cfg1 in Hcand. by rewrite (Hnone p Hp) in Hcand. }
  destruct (filter_new cfg1 (mkManager (Some st)) posts) as [|a rest] eqn:Hnew.
  - rewrite (run_idle env cfg eom st clk tr posts Hc Hf Hnew). eexists. split; [done|].
    apply Hgoal. intros p Hp.
    destruct (candidate cfg1 _ p) eqn:Hcand; [|done].
    destruct (candidate_filter_new cfg1 (mkManager (Some st)) posts p Hp Hcand)
      as (b & Hin & _).
    rewrite Hnew in Hin. by apply elem_of_nil in Hin.
  - destruct (run_processed_exact env cfg eom st clk tr posts a rest Hc Hf Hnew)
      as (t & st1 & -> & Hst1).
    fold cfg1 in Hst1. exists st1. split; [done|]. apply Hgoal.
    set (evs := attempt_events (attempts_from env cfg1 1 (a :: rest))) in *.
    assert (Hdel : ∀ b, b ∈ a :: rest → a_id b ∈ delivered evs).
    { intros b Hb. apply (attempts_from_all env cfg1 (a :: rest) b); try done.
      intros i. subst cfg1. rewrite adjust_premium_dry_run. apply Hall. }
    assert (Hids : processed_post_ids st1
                   = list_to_set (delivered evs) ∪ processed_post_ids st).
    { destruct (committed_fields (delivered evs) st) as (_ & _ & _ & C4 & _).
      destruct (delivered evs) as [|id ids] eqn:Hd.
      - injection Hst1 as ->. simpl. by rewrite union_empty_l_L.
      - unfold cleanup_old_processed_ids in Hst1. simpl in Hst1.
        rewrite decide_False in Hst1.
        + injection Hst1 as ->. exact C4.
        + simpl.
          change (processed_post_ids (committed ids (marked id st)))
            with (processed_post_ids (committed (id :: ids) st)).
          rewrite C4.
          pose proof (size_list_to_set_union (id :: ids) (processed_post_ids st)) as Hsz.
          assert (Hlen : (length (id :: ids) ≤ length posts)%nat).
          { rewrite <- Hd. subst evs. rewrite delivered_attempt_events, length_fmap.
            etrans; [apply List.filter_length_le|].
            pose proof (sublist_length _ _ (attempts_from_sublist env cfg1 (a :: rest) 1))
              as Hsub.
            rewrite !length_fmap in Hsub.
            etrans; [exact Hsub|].
            rewrite <- Hnew, filter_new_filter. etrans; [apply length_omap_le|].
            apply List.filter_length_le. }
          lia. }
    intros p Hp. destruct (candidate cfg1 (mkManager (Some st1)) p) eqn:Hcand; [|done].
    apply (candidate_larger cfg1 st st1) in Hcand as (Hcand & id & Hid & Hnot).
    2: { rewrite Hids. set_solver. }
    destruct Hnot. rewrite Hids. apply elem_of_union_l, elem_of_list_to_set.
    destruct (candidate_filter_new cfg1 (mkManager (Some st)) posts p Hp Hcand)
      as (b & Hb & Hbid).
    rewrite Hid in Hbid. injection Hbid as ->.
    apply Hdel. by rewrite <- Hnew.
Qed.

End Replay.

Lemma run_replay_delivers_nothing_witness :
  let posts := [post_of (IdInt 1); post_of (IdInt 2); post_of (IdInt 3)] in
  let env := env_with (GetResponse 200 (Ok posts)) (λ _, true) in
  ∃ st1,
    state (state_manager (snd (run env (machine_of st_one)))) = Some st1
    ∧ ∀ env2 clk2 tr2,
        http env2 = GetResponse 200 (Ok posts) →
        delivered_attempts
          (drop (length tr2)
             (trace (snd (run env2 (mkMachine cfg_default eom_default
                                      (mkManager (Some st1)) clk2 tr2)))))
        = [].
Proof.
  intros posts env.
  apply (run_replay_delivers_nothing env cfg_default eom_default st_one 5000 [] posts);
    [reflexivity|reflexivity|intros i; split; reflexivity|].
  change (processed_post_ids st_one) with ({[2]} : gset Z).
  rewrite size_singleton. simpl. lia.
Defined.

(** * Start-up *)

Section StartUp.
Context `{IsoCodec}.

(** [validate_config] reports no error exactly when the two addresses and
    the two SMTP credentials are non-empty and, if premium content is to
    be processed, both EOM credentials are set and non-empty. *)
Theorem validate_config_ok_iff (email : EmailConfig) (eom : EOMConfig) (app : AppConfig) :
  validate_config email eom app = []
  ↔ readwise_email email ≠ "" ∧ from_email email ≠ ""
    ∧ smtp_username email ≠ "" ∧ smtp_password email ≠ ""
    ∧ (process_premium_content app = true →
       truthy_str (username eom) = true ∧ truthy_str (password eom) = true).
Proof.
  unfold validate_config.
  destruct (String.eqb_spec (readwise_email email) "") as [Hr|Hr];
    [split; [done|by intros (? & _)]|].
  destruct (String.eqb_spec (from_email email) "") as [Hf|Hf];
    [split; [done|by intros (_ & ? & _)]|].
  destruct (String.eqb_spec (smtp_username email) "") as [Hu|Hu];
    [split; [done|by intros (_ & _ & ? & _)]|].
  destruct (String.eqb_spec (smtp_password email) "") as [Hp|Hp];
    [split; [done|by intros (_ & _ & _ & ? & _)]|].
  simpl.
  destruct (process_premium_content app); simpl.
  - destruct (truthy_str (username eom)); simpl;
      [destruct (truthy_str (password eom)); simpl|].
    + split; [by intros _|done].
    + split; [done|]. intros (_ & _ & _ & _ & Hcred). by destruct Hcred.
    + split; [done|]. intros (_ & _ & _ & _ & Hcred). by destruct Hcred.
  - split; [by intros _|done].
Qed.

(** [EOMScraper()] checks the configuration before it touches the state
    file: an invalid configuration raises [ValueError] whatever the file
    holds. With a valid configuration, a missing file and a file that is
    not JSON give a scraper on a fresh state stamped with the clock, and
    the document a previous run saved gives a scraper on that state. *)
Theorem EOMScraper_init_spec email eom app (now : datetime) :
  (validate_config email eom app ≠ [] →
   ∀ file, EOMScraper_init email eom app file now = Some (inl InvalidConfig))
  ∧ (validate_config email eom app = [] →
     (∀ file, file = None ∨ file = Some NotJson →
        EOMScraper_init email eom app file now
        = Some (inr (mkMachine app eom (mkManager (Some (mkState (isoformat now) ∅ 0 "" 0)))
                       now [])))
     ∧ ∀ st, EOMScraper_init email eom app (Some (Json (to_dict st))) now
             = Some (inr (mkMachine app eom (mkManager (Some st)) now []))).
Proof.
  unfold EOMScraper_init. split.
  - intros Hbad file. by destruct (validate_config email eom app).
  - intros ->. split.
    + intros file Hfile. by rewrite (load_state_recovers file now _ Hfile).
    + intros st. unfold load_state. by rewrite from_dict_to_dict.
Qed.


End StartUp.

Lemma EOMScraper_init_spec_witness :
  EOMScraper_init (mkEmailConfig "" 587 "" "" "" "" "") eom_default cfg_default
                  (Some NotUtf8) 5000
  = Some (inl InvalidConfig)
  ∧ EOMScraper_init email_valid eom_default cfg_default None 5000
    = Some (inr (mkMachine cfg_default eom_default
                   (mkManager (Some (mkState (isoformat 5000) ∅ 0 "" 0))) 5000 []))
  ∧ EOMScraper_init email_valid eom_default cfg_default (Some (Json (to_dict st_one))) 5000
    = Some (inr (machine_of st_one)).
Proof.
  split; [|split].
  - apply (proj1 (EOMScraper_init_spec (mkEmailConfig "" 587 "" "" "" "" "")
                    eom_default cfg_default 5000)). discriminate.
  - apply (proj1 (proj2 (EOMScraper_init_spec email_valid eom_default cfg_default 5000)
                    eq_refl)). by left.
  - apply (proj2 (proj2 (EOMScraper_init_spec email_valid eom_default cfg_default 5000)
                    eq_refl)).
Defined.


(** The watermarks the runs of the instance above start from: the second
    run tears the file, and the third starts on a fresh state. *)
Example first_start_watermarks :
  (fmap (M := list)
     (λ r, match r with Ok p => watermark (loaded p) | Raise _ => None end))
    <$> runs cfg_default eom_default
          [(0%N, env_with (GetResponse 200 (Ok [])) (λ _, true));
           (60000000%N,
            env_disk_down (GetResponse 200 (Ok [post_of (IdInt 1)])) FileTornText);
           (0%N, env_with (GetResponse 200 (Ok [])) (λ _, true))]
          None 5000
  = Some [Some 5000; Some 5000; Some 62005049].
Proof. vm_compute. reflexivity. Qed.

(** * The self-test *)

Section SelfTestFacts.
Context `{IsoCodec}.
Variable env : Env.
Variable penv : ProbeEnv.

Lemma make_request_eq {A} (r : response A) cfg eom sm clk tr :
  make_request env r (mkMachine cfg eom sm clk tr)
  = (answered r, mkMachine cfg eom sm (clk + Z.of_N (request_time cfg env r)) tr).
Proof.
  unfold make_request, answered, request_time,
    bind, try_catch, get_machine, elapse, raise, ret; simpl.
  destruct r as [e|status body]; simpl.
  - rewrite N.add_0_r. by destruct e.
  - rewrite N2Z.inj_add, Z.add_assoc.
    destruct (status =? 200); [|done].
    destruct body as [a|e]; [done|by destruct e].
Qed.

(** The request of [get_posts_since] is [make_request] on the answer of
    the feed, after the fetch event. *)
Lemma _make_request_make_request since m :
  _make_request env since m
  = bind (emit (EvFetch (clock m) since))
      (λ _, make_request env
              (match http env with
               | GetRaises e => Raises e
               | GetResponse status body => Response status body
               end)) m.
Proof.
  unfold _make_request, make_request, bind, get_machine, emit, elapse, try_catch; simpl.
  by destruct (http env).
Qed.

Lemma answered_raise {A} (r : response A) e : answered r = Raise e → e ≠ RequestException.
Proof.
  destruct r as [e'|status body]; simpl.
  - destruct e'; intros [= <-]; discriminate.
  - destruct (status =? 200); [|done].
    destruct body as [a|e']; [done|]. destruct e'; intros [= <-]; discriminate.
Qed.

Lemma request_time_bound {A} (r : response A) cfg :
  0 ≤ Z.of_N (request_time cfg env r) ≤ request_bound cfg env.
Proof. unfold request_time, request_bound. destruct r; lia. Qed.

(** The loop with enough fuel: it does not run out, keeps what it had
    collected, leaves everything but the clock alone, and takes at most
    one request for each post still wanted. *)
Lemma recent_loop_spec cfg eom sm tr limit : ∀ fuel page all_posts clk,
  (Z.to_nat (limit - Z.of_nat (length all_posts)) ≤ fuel)%nat →
  ∃ r clk',
    recent_loop env penv fuel limit page all_posts (mkMachine cfg eom sm clk tr)
    = (r, mkMachine cfg eom sm clk' tr)
    ∧ clk ≤ clk'
    ∧ clk' ≤ clk + Z.max 0 (limit - Z.of_nat (length all_posts)) * request_bound cfg env
    ∧ match r with
      | Ok (Some posts) => all_posts `prefix_of` posts
      | Ok None => False
      | Raise e => e ≠ RequestException
      end.
Proof.
  assert (Hb : 0 ≤ request_bound cfg env) by (unfold request_bound; lia).
  induction fuel as [|fuel IH]; intros page all_posts clk Hfuel.
  - simpl. destruct (Z.of_nat (length all_posts) <? limit) eqn:Hlt.
    + apply Z.ltb_lt in Hlt. lia.
    + exists (Ok (Some all_posts)), clk. split; [done|]. split; [lia|]. split; [nia|done].
  - cbn [recent_loop]. destruct (Z.of_nat (length all_posts) <? limit) eqn:Hlt.
    2: { exists (Ok (Some all_posts)), clk. split; [done|]. split; [lia|].
         split; [nia|done]. }
    apply Z.ltb_lt in Hlt. unfold bind at 1. rewrite make_request_eq.
    set (r := pages penv page _).
    pose proof (request_time_bound r cfg) as Hrt.
    pose proof (answered_raise r) as Hraise.
    assert (Hone : Z.of_N (request_time cfg env r)
                   ≤ Z.max 0 (limit - Z.of_nat (length all_posts)) * request_bound cfg env)
      by nia.
    destruct (answered r) as [[[|p ps]|]|e].
    + eexists (Ok (Some all_posts)), _. split; [done|]. split; [lia|]. split; [lia|done].
    + destruct (Z.of_nat (length (p :: ps)) <? _).
      * eexists (Ok (Some (all_posts ++ p :: ps))), _. split; [done|]. split; [lia|].
        split; [lia|]. by apply prefix_app_r.
      * destruct (IH (S page) (all_posts ++ p :: ps)
                    (clk + Z.of_N (request_time cfg env r))) as (r' & clk' & Heq & H1 & H2 & H3).
        { rewrite length_app. simpl. lia. }
        exists r', clk'. split; [done|]. split; [lia|]. split.
        -- rewrite length_app in H2. simpl in H2. nia.
        -- destruct r' as [[posts|]|e]; [|done|done].
           etrans; [|exact H3]. by apply prefix_app_r.
    + eexists (Ok (Some all_posts)), _. split; [done|]. split; [lia|]. split; [lia|done].
    + eexists (Raise e), _. split; [done|]. split; [lia|]. split; [lia|by apply Hraise].
Qed.

(** [get_all_recent_posts] always ends: its loop never needs more
    iterations than the bound it is given. It returns at most [limit]
    posts (none, and without any request, when [limit ≤ 0]), takes at
    most the time of [limit] requests, changes nothing but the clock, and
    raises only what is not a [RequestException]. *)
Theorem get_all_recent_posts_total limit cfg eom sm clk tr :
  ∃ r clk',
    get_all_recent_posts env penv limit (mkMachine cfg eom sm clk tr)
    = (r, mkMachine cfg eom sm clk' tr)
    ∧ clk ≤ clk'
    ∧ clk' ≤ clk + Z.max 0 limit * request_bound cfg env
    ∧ (∃ r0 : result (list Post),
         fst (recent_loop env penv (Z.to_nat limit) limit 1 [] (mkMachine cfg eom sm clk tr))
         = match r0 with Ok posts => Ok (Some posts) | Raise e => Raise e end)
    ∧ match r with
      | Ok posts => (length posts ≤ Z.to_nat limit)%nat
      | Raise e => e ≠ RequestException
      end.
Proof.
  assert (Hb : 0 ≤ request_bound cfg env) by (unfold request_bound; lia).
  destruct (decide (0 < limit)) as [Hpos|Hneg].
  - destruct (recent_loop_spec cfg eom sm tr limit (Z.to_nat limit) 1 [] clk)
      as (r & clk' & Heq & H1 & H2 & H3); [simpl; lia|].
    unfold get_all_recent_posts, bind. rewrite Heq. simpl in H2.
    rewrite Z.sub_0_r in H2.
    destruct r as [[posts|]|e]; [|done|].
    + eexists (Ok _), clk'. split; [done|]. split; [done|]. split; [done|].
      split; [by exists (Ok posts)|].
      simpl. unfold py_slice_to. rewrite decide_True by lia.
      rewrite length_take. lia.
    + exists (Raise e), clk'. split; [done|]. split; [done|]. split; [done|].
      split; [by exists (Raise e)|done].
  - assert (Hfuel : Z.to_nat limit = 0%nat) by lia.
    assert (Hlt : (Z.of_nat 0 <? limit) = false) by (apply Z.ltb_ge; lia).
    unfold get_all_recent_posts, bind. rewrite Hfuel. simpl. rewrite Hlt. simpl.
    exists (Ok (py_slice_to limit [])), clk. split; [done|]. split; [lia|].
    split; [nia|]. split; [by exists (Ok [])|].
    unfold py_slice_to. destruct (decide (0 ≤ limit)); rewrite take_nil; simpl; lia.
Qed.

(** [get_all_recent_posts 5], as [test_setup] calls it. *)
Lemma get_all_recent_posts_posts cfg eom sm clk tr :
  ∃ r clk',
    get_all_recent_posts env penv 5 (mkMachine cfg eom sm clk tr)
    = (r, mkMachine cfg eom sm clk' tr)
    ∧ clk ≤ clk'
    ∧ match r with
      | Ok posts => True
      | Raise e => e ≠ RequestException
      end.
Proof.
  destruct (recent_loop_spec cfg eom sm tr 5 (Z.to_nat 5) 1 [] clk)
    as (r & clk' & Heq & H1 & H2 & H3); [simpl; lia|].
  unfold get_all_recent_posts, bind. rewrite Heq.
  destruct r as [[posts|]|e]; [|done|].
  - by eexists (Ok _), clk'.
  - by exists (Raise e), clk'.
Qed.

(** The self-test changes nothing: whatever the API, the feed and the
    SMTP server answer, [test_setup] leaves the configuration, the state
    and the trace as they were (no delivery, no save); only time passes.
    It raises only what is not a [RequestException], and it returns
    [True] only if the API root answered with a non-empty document and
    the SMTP check passed. *)
Theorem test_setup_readonly cfg eom sm clk tr :
  ∃ r clk',
    test_setup env penv (mkMachine cfg eom sm clk tr) = (r, mkMachine cfg eom sm clk' tr)
    ∧ clk ≤ clk'
    ∧ match r with
      | Ok true => answered (root penv) = Ok (Some true) ∧ connected cfg env = true
      | Ok false => True
      | Raise e => e ≠ RequestException
      end.
Proof.
  unfold test_setup, discover_api_endpoints. unfold bind at 1. rewrite make_request_eq.
  pose proof (request_time_bound (root penv) cfg) as Hrt.
  pose proof (answered_raise (root penv)) as Hraise.
  destruct (answered (root penv)) as [[[|]|]|e].
  - change (default false (Some true)) with true. cbv iota.
    destruct (get_all_recent_posts_posts cfg eom sm
                (clk + Z.of_N (request_time cfg env (root penv))) tr)
      as (r & clk' & Heq & H1 & H3).
    unfold bind at 1. rewrite Heq.
    destruct r as [[|p ps]|e].
    + eexists (Ok false), _. split; [done|]. split; [lia|done].
    + unfold bind at 1. rewrite test_connection_eq.
      assert (0 ≤ smtp_time cfg env) by (unfold smtp_time; destruct (dry_run cfg); lia).
      destruct (connected cfg env) eqn:Hc.
      * eexists (Ok true), _. split; [done|]. split; [lia|done].
      * eexists (Ok false), _. split; [done|]. split; [lia|done].
    + eexists (Raise e), _. split; [done|]. split; [lia|done].
  - eexists (Ok false), _. split; [done|]. split; [lia|done].
  - eexists (Ok false), _. split; [done|]. split; [lia|done].
  - eexists (Raise e), _. split; [done|]. split; [lia|by apply Hraise].
Qed.

End SelfTestFacts.

(** Five posts are asked for, two per page: three requests, and the ids
    tell the pages the posts came from. *)
Example get_all_recent_posts_pages :
  let r := get_all_recent_posts (env_with (GetResponse 200 (Ok [])) (λ _, true)) penv_full 5
             (machine_of st_one) in
  match fst r with Ok posts => map p_id posts | Raise _ => [] end
  = [IdInt 1; IdInt 1; IdInt 2; IdInt 2; IdInt 3]
  ∧ clock (snd r) = 5000 + 3 * (7 + 1000000).
Proof. vm_compute. split; reflexivity. Qed.

Example test_setup_passes :
  test_setup (env_with (GetResponse 200 (Ok [])) (λ _, true)) penv_full (machine_of st_one)
  = (Ok true,
     mkMachine cfg_default eom_default (mkManager (Some st_one))
       (5000 + 4 * (7 + 1000000) + 7) []).
Proof. vm_compute. reflexivity. Qed.

(** * Classifying posts *)

Section Classify.

Lemma prefix_spec (s1 s2 : string) :
  String.prefix s1 s2 = true ↔ ∃ post, s2 = s1 +:+ post.
Proof.
  revert s2. induction s1 as [|c s1 IH]; intros s2; simpl.
  - split; [intros _; by exists s2|intros _; by destruct s2].
  - destruct s2 as [|c2 s2]; [split; [done|by intros (post & ?)]|].
    simpl. destruct (Ascii.ascii_dec c c2) as [->|Hne].
    + rewrite IH. split.
      * intros (post & ->). by exists post.
      * intros (post & [= ->]). by exists post.
    + split; [done|]. intros (post & [= <- _]). done.
Qed.

Lemma contains_spec (needle hay : string) :
  contains needle hay = true ↔ ∃ pre post, hay = pre +:+ needle +:+ post.
Proof.
  induction hay as [|c hay IH].
  - change (contains needle "") with (String.prefix needle "" || false).
    rewrite orb_false_r, prefix_spec. split.
    + intros (post & Hp). by exists "", post.
    + intros (pre & post & Hp). destruct pre as [|c pre]; [by exists post|done].
  - change (contains needle (String c hay))
      with (String.prefix needle (String c hay) || contains needle hay).
    rewrite orb_true_iff, IH, prefix_spec.
    split.
    + intros [(post & Hp)|(pre & post & ->)].
      * by exists "", post.
      * by exists (String c pre), post.
    + intros (pre & post & Hp). destruct pre as [|c' pre].
      * left. by exists post.
      * right. injection Hp as -> ->. by exists pre, post.
Qed.

(** [classify_post_access] answers premium exactly when the paywall
    marker occurs somewhere in the rendered content, and open otherwise;
    the content around the marker plays no part. *)
Theorem classify_post_access_spec (p : Post) :
  (classify_post_access p = Premium
   ↔ ∃ pre post, p_content p = pre +:+ "mepr-unauthorized-excerpt" +:+ post)
  ∧ (classify_post_access p = Open
     ↔ ¬ ∃ pre post, p_content p = pre +:+ "mepr-unauthorized-excerpt" +:+ post).
Proof.
  unfold classify_post_access.
  pose proof (contains_spec "mepr-unauthorized-excerpt" (p_content p)) as Hc.
  destruct (contains "mepr-unauthorized-excerpt" (p_content p)).
  - split; split; try done.
    + intros _. by apply Hc.
    + intros Hno. destruct Hno. by apply Hc.
  - split; split; try done.
    + intros Hex. apply Hc in Hex. done.
    + intros _ Hex. apply Hc in Hex. done.
Qed.

End Classify.

(** * The request of a run *)

Section RunFetch.
Context `{IsoCodec}.
Variable env : Env.

Lemma get_last_check_datetime_watermark (now : datetime) (st : ScraperState) :
  get_last_check_datetime now (mkManager (Some st))
  = default (now - one_hour) (watermark st).
Proof.
  unfold get_last_check_datetime, watermark; simpl.
  destruct (String.eqb (last_check_timestamp st) ""); simpl; [done|].
  by destruct (fromisoformat (replace_Z (last_check_timestamp st))).
Qed.

Lemma loop_events_no_fetch cfg articles evs issued since :
  Forall (loop_event env cfg articles) evs → EvFetch issued since ∉ evs.
Proof.
  rewrite Forall_forall. intros Hev Hin.
  by destruct (Hev _ Hin) as (id & i & a & ? & _).
Qed.

(** A run asks the feed at most once, and before anything else it does
    to the outside: when the SMTP check passes, the first event of the run
    is the one fetch, issued at the clock reading after the check for the
    posts after the watermark (after one hour before that reading when the
    state has no readable watermark), and no other request follows; when
    the check fails there is no event at all. *)
Theorem run_fetches_once cfg eom st clk tr :
  let m := mkMachine cfg eom (mkManager (Some st)) clk tr in
  let clk1 := clk + smtp_time cfg env in
  ∃ evs,
    trace (snd (run env m)) = tr ++ evs
    ∧ if connected cfg env
      then ∃ rest,
             evs = EvFetch clk1 (default (clk1 - one_hour) (watermark st)) :: rest
             ∧ ∀ issued since, EvFetch issued since ∉ rest
      else evs = [].
Proof.
  intros m clk1. subst m clk1.
  destruct (connected cfg env) eqn:Hc.
  2: { rewrite (run_aborted env cfg eom _ clk tr Hc). exists []. simpl.
       by rewrite app_nil_r. }
  rewrite <- get_last_check_datetime_watermark.
  destruct (fetched (http env)) as [posts|e] eqn:Hf.
  2: { rewrite (run_crashed env cfg eom st clk tr e Hc Hf). eexists. simpl.
       split; [done|]. eexists. split; [done|]. intros issued since Hin.
       apply list_elem_of_singleton in Hin. done. }
  destruct (filter_new (adjust_premium cfg eom) (mkManager (Some st)) posts)
    as [|a rest] eqn:Hnew.
  { rewrite (run_idle env cfg eom st clk tr posts Hc Hf Hnew). eexists. simpl.
    split; [done|]. eexists. split; [done|]. intros issued since Hin.
    apply list_elem_of_singleton in Hin. done. }
  destruct (run_processed env cfg eom st clk tr posts a rest Hc Hf Hnew)
    as (evs & d & st' & -> & Hev & _).
  eexists. simpl. split; [done|]. eexists. split; [done|].
  intros issued since Hin. apply elem_of_app in Hin as [Hin|Hin].
  - by apply (loop_events_no_fetch _ _ _ issued since Hev).
  - apply list_elem_of_singleton in Hin. done.
Qed.

End RunFetch.
